(** * Verification of the kissLIB KISS framing engine (src/kissLIB.c)

    A shallow embedding of the C library: bytes are [Z] values, the
    instance struct is a record, every C function is a state-passing Rocq
    function returning its [int32_t] result code together with the new
    instance.  Pointers that the code checks against [NULL] are modelled as
    present unless stated otherwise; [read] and [write] callbacks are
    represented by a presence flag in the instance and, for
    [kiss_receive_frame], by a state-passing function of the caller. *)

From Stdlib Require Import ZArith List Lia Bool Arith Wf_nat.
Import ListNotations.
Open Scope Z_scope.

(** ** Constants of kissLIB.h *)

Definition KISS_FEND : Z := 0xC0.
Definition KISS_FESC : Z := 0xDB.
Definition KISS_TFEND : Z := 0xDC.
Definition KISS_TFESC : Z := 0xDD.

Definition KISS_OK : Z := 0.
Definition KISS_ERR_INVALID_PARAMS : Z := 1.
Definition KISS_ERR_INVALID_FRAME : Z := 2.
Definition KISS_ERR_BUFFER_OVERFLOW : Z := 3.
Definition KISS_ERR_NO_DATA_RECEIVED : Z := 4.
Definition KISS_ERR_DATA_NOT_ENCODED : Z := 5.
Definition KISS_ERR_CRC32_MISMATCH : Z := 6.
Definition KISS_ERR_CALLBACK_MISSING : Z := 7.
Definition KISS_ERR_HEADER_ESCAPE : Z := 8.
Definition KISS_ERR_STATUS : Z := 9.
Definition KISS_ERR_PADDING_OVERFLOW : Z := 10.

Definition KISS_HEADER_REQUEST_PARAM : Z := 0x40.
Definition KISS_HEADER_SET_PARAM : Z := 0x50.
Definition KISS_MAX_PADDING : Z := 32.
Definition KISS_HEADER_TX_DELAY : Z := 0x10.
Definition KISS_HEADER_SPEED : Z := 0x60.
Definition KISS_HEADER_PING : Z := 0x80.
Definition KISS_HEADER_ACK : Z := 0xA0.
Definition KISS_HEADER_NACK : Z := 0xA5.
Definition KISS_HEADER_COMMAND : Z := 0x70.

(** The [KISS_STATUS_*] values. *)
Inductive kiss_status :=
| KISS_STATUS_NOTHING
| KISS_STATUS_TRANSMITTING
| KISS_STATUS_TRANSMITTED
| KISS_STATUS_RECEIVING
| KISS_STATUS_RECEIVED
| KISS_STATUS_RECEIVED_ERROR
| KISS_STATUS_ERROR_STATE.

Definition status_eqb (a b : kiss_status) : bool :=
  match a, b with
  | KISS_STATUS_NOTHING, KISS_STATUS_NOTHING
  | KISS_STATUS_TRANSMITTING, KISS_STATUS_TRANSMITTING
  | KISS_STATUS_TRANSMITTED, KISS_STATUS_TRANSMITTED
  | KISS_STATUS_RECEIVING, KISS_STATUS_RECEIVING
  | KISS_STATUS_RECEIVED, KISS_STATUS_RECEIVED
  | KISS_STATUS_RECEIVED_ERROR, KISS_STATUS_RECEIVED_ERROR
  | KISS_STATUS_ERROR_STATE, KISS_STATUS_ERROR_STATE => true
  | _, _ => false
  end.

(** ** The instance, [struct kiss_instance_t]

    [buffer] holds the caller's working memory; [kiss_init] records its
    size in [buffer_size].  The ghost field [oob_write] is not in the C
    struct: it is set when the code stores to [buffer[i]] with
    [i >= buffer_size] (the store itself is then dropped), so that buffer
    safety is observable. *)
Record kiss_instance := mk_kiss {
  buffer : list Z;
  buffer_size : nat;
  index : nat;
  TXdelay : Z;
  write_set : bool;
  read_set : bool;
  Status : kiss_status;
  padding : Z;
  oob_write : bool
}.

Definition set_index (k : kiss_instance) (i : nat) : kiss_instance :=
  mk_kiss (buffer k) (buffer_size k) i (TXdelay k) (write_set k) (read_set k)
          (Status k) (padding k) (oob_write k).

Definition set_status (k : kiss_instance) (s : kiss_status) : kiss_instance :=
  mk_kiss (buffer k) (buffer_size k) (index k) (TXdelay k) (write_set k)
          (read_set k) s (padding k) (oob_write k).

Fixpoint upd (l : list Z) (i : nat) (v : Z) : list Z :=
  match l, i with
  | [], _ => []
  | _ :: t, O => v :: t
  | x :: t, S j => x :: upd t j v
  end.

(** [kiss->buffer[i] = v] *)
Definition store (k : kiss_instance) (i : nat) (v : Z) : kiss_instance :=
  if (i <? buffer_size k)%nat then
    mk_kiss (upd (buffer k) i v) (buffer_size k) (index k) (TXdelay k)
            (write_set k) (read_set k) (Status k) (padding k) (oob_write k)
  else
    mk_kiss (buffer k) (buffer_size k) (index k) (TXdelay k)
            (write_set k) (read_set k) (Status k) (padding k) true.

(** [kiss->buffer[i]] *)
Definition load (k : kiss_instance) (i : nat) : Z := nth i (buffer k) 0.

(** [kiss->buffer[kiss->index] = v; kiss->index++;] *)
Definition put (k : kiss_instance) (v : Z) : kiss_instance :=
  set_index (store k (index k) v) (S (index k)).

(** ** kiss_init *)
Definition kiss_init (buf : option (list Z)) (bs : nat) (tx_delay : Z)
    (write read : bool) (pad : Z) : Z * option kiss_instance :=
  match buf with
  | None => (KISS_ERR_INVALID_PARAMS, None)
  | Some b =>
      if (bs =? 0)%nat then (KISS_ERR_INVALID_PARAMS, None)
      else if (bs <? 3)%nat then (KISS_ERR_INVALID_PARAMS, None)
      else if pad >? KISS_MAX_PADDING then (KISS_ERR_PADDING_OVERFLOW, None)
      else (KISS_OK, Some (mk_kiss b bs 0 tx_delay write read
                                   KISS_STATUS_NOTHING pad false))
  end.

(** ** kiss_encode / kiss_push_encode

    The payload loop of [kiss_encode] and the one of [kiss_push_encode] are
    the same code; both are [kiss_stuff_loop]. *)
Fixpoint kiss_stuff_loop (k : kiss_instance) (data : list Z) : Z * kiss_instance :=
  match data with
  | [] => (KISS_OK, k)
  | b :: rest =>
      if b =? KISS_FEND then
        if (buffer_size k <? index k + 2)%nat
        then (KISS_ERR_BUFFER_OVERFLOW, set_status k KISS_STATUS_ERROR_STATE)
        else kiss_stuff_loop (put (put k KISS_FESC) KISS_TFEND) rest
      else if b =? KISS_FESC then
        if (buffer_size k <? index k + 2)%nat
        then (KISS_ERR_BUFFER_OVERFLOW, set_status k KISS_STATUS_ERROR_STATE)
        else kiss_stuff_loop (put (put k KISS_FESC) KISS_TFESC) rest
      else
        if (buffer_size k <? index k + 1)%nat
        then (KISS_ERR_BUFFER_OVERFLOW, set_status k KISS_STATUS_ERROR_STATE)
        else kiss_stuff_loop (put k b) rest
  end.

Definition kiss_encode (k : kiss_instance) (data : list Z) (header : Z)
    : Z * kiss_instance :=
  if (buffer_size k <? 3)%nat then (KISS_ERR_BUFFER_OVERFLOW, k) else
  let k := put (set_index k 0) KISS_FEND in
  let k :=
    if KISS_FESC =? header then put (put k KISS_FESC) KISS_TFESC
    else if KISS_FEND =? header then put (put k KISS_FESC) KISS_TFEND
    else put k header in
  match kiss_stuff_loop k data with
  | (rc, k) =>
      if negb (rc =? KISS_OK) then (rc, k) else
      if (buffer_size k <? index k + 1)%nat
      then (KISS_ERR_BUFFER_OVERFLOW, set_status k KISS_STATUS_ERROR_STATE)
      else (KISS_OK, set_status (put k KISS_FEND) KISS_STATUS_TRANSMITTING)
  end.

Definition kiss_push_encode (k : kiss_instance) (data : list Z) : Z * kiss_instance :=
  match data with [] => (KISS_ERR_INVALID_PARAMS, k) | _ =>
  if status_eqb (Status k) KISS_STATUS_ERROR_STATE then (KISS_ERR_STATUS, k) else
  if negb (status_eqb (Status k) KISS_STATUS_TRANSMITTING)
  then (KISS_ERR_INVALID_PARAMS, k) else
  if (index k =? 0)%nat then (KISS_ERR_INVALID_PARAMS, k) else
  if negb (load k (index k - 1) =? KISS_FEND)
  then (KISS_ERR_INVALID_FRAME, set_status k KISS_STATUS_ERROR_STATE) else
  let k := set_index k (index k - 1) in
  match kiss_stuff_loop k data with
  | (rc, k) =>
      if negb (rc =? KISS_OK) then (rc, k) else
      if (buffer_size k <? index k + 1)%nat
      then (KISS_ERR_BUFFER_OVERFLOW, set_status k KISS_STATUS_ERROR_STATE)
      else (KISS_OK, put k KISS_FEND)
  end
  end.

(** ** CRC32: the table of the non-ARDUINO build and kiss_crc32 / kiss_crc32_push *)

Definition kiss_CRC32_Table : list Z := [
  0x00000000; 0x77073096; 0xEE0E612C; 0x990951BA; 0x076DC419; 0x706AF48F; 0xE963A535; 0x9E6495A3;
  0x0EDB8832; 0x79DCB8A4; 0xE0D5E91E; 0x97D2D988; 0x09B64C2B; 0x7EB17CBD; 0xE7B82D07; 0x90BF1D91;
  0x1DB71064; 0x6AB020F2; 0xF3B97148; 0x84BE41DE; 0x1ADAD47D; 0x6DDDE4EB; 0xF4D4B551; 0x83D385C7;
  0x136C9856; 0x646BA8C0; 0xFD62F97A; 0x8A65C9EC; 0x14015C4F; 0x63066CD9; 0xFA0F3D63; 0x8D080DF5;
  0x3B6E20C8; 0x4C69105E; 0xD56041E4; 0xA2677172; 0x3C03E4D1; 0x4B04D447; 0xD20D85FD; 0xA50AB56B;
  0x35B5A8FA; 0x42B2986C; 0xDBBBC9D6; 0xACBCF940; 0x32D86CE3; 0x45DF5C75; 0xDCD60DCF; 0xABD13D59;
  0x26D930AC; 0x51DE003A; 0xC8D75180; 0xBFD06116; 0x21B4F4B5; 0x56B3C423; 0xCFBA9599; 0xB8BDA50F;
  0x2802B89E; 0x5F058808; 0xC60CD9B2; 0xB10BE924; 0x2F6F7C87; 0x58684C11; 0xC1611DAB; 0xB6662D3D;
  0x76DC4190; 0x01DB7106; 0x98D220BC; 0xEFD5102A; 0x71B18589; 0x06B6B51F; 0x9FBFE4A5; 0xE8B8D433;
  0x7807C9A2; 0x0F00F934; 0x9609A88E; 0xE10E9818; 0x7F6A0DBB; 0x086D3D2D; 0x91646C97; 0xE6635C01;
  0x6B6B51F4; 0x1C6C6162; 0x856530D8; 0xF262004E; 0x6C0695ED; 0x1B01A57B; 0x8208F4C1; 0xF50FC457;
  0x65B0D9C6; 0x12B7E950; 0x8BBEB8EA; 0xFCB9887C; 0x62DD1DDF; 0x15DA2D49; 0x8CD37CF3; 0xFBD44C65;
  0x4DB26158; 0x3AB551CE; 0xA3BC0074; 0xD4BB30E2; 0x4ADFA541; 0x3DD895D7; 0xA4D1C46D; 0xD3D6F4FB;
  0x4369E96A; 0x346ED9FC; 0xAD678846; 0xDA60B8D0; 0x44042D73; 0x33031DE5; 0xAA0A4C5F; 0xDD0D7CC9;
  0x5005713C; 0x270241AA; 0xBE0B1010; 0xC90C2086; 0x5768B525; 0x206F85B3; 0xB966D409; 0xCE61E49F;
  0x5EDEF90E; 0x29D9C998; 0xB0D09822; 0xC7D7A8B4; 0x59B33D17; 0x2EB40D81; 0xB7BD5C3B; 0xC0BA6CAD;
  0xEDB88320; 0x9ABFB3B6; 0x03B6E20C; 0x74B1D29A; 0xEAD54739; 0x9DD277AF; 0x04DB2615; 0x73DC1683;
  0xE3630B12; 0x94643B84; 0x0D6D6A3E; 0x7A6A5AA8; 0xE40ECF0B; 0x9309FF9D; 0x0A00AE27; 0x7D079EB1;
  0xF00F9344; 0x8708A3D2; 0x1E01F268; 0x6906C2FE; 0xF762575D; 0x806567CB; 0x196C3671; 0x6E6B06E7;
  0xFED41B76; 0x89D32BE0; 0x10DA7A5A; 0x67DD4ACC; 0xF9B9DF6F; 0x8EBEEFF9; 0x17B7BE43; 0x60B08ED5;
  0xD6D6A3E8; 0xA1D1937E; 0x38D8C2C4; 0x4FDFF252; 0xD1BB67F1; 0xA6BC5767; 0x3FB506DD; 0x48B2364B;
  0xD80D2BDA; 0xAF0A1B4C; 0x36034AF6; 0x41047A60; 0xDF60EFC3; 0xA867DF55; 0x316E8EEF; 0x4669BE79;
  0xCB61B38C; 0xBC66831A; 0x256FD2A0; 0x5268E236; 0xCC0C7795; 0xBB0B4703; 0x220216B9; 0x5505262F;
  0xC5BA3BBE; 0xB2BD0B28; 0x2BB45A92; 0x5CB36A04; 0xC2D7FFA7; 0xB5D0CF31; 0x2CD99E8B; 0x5BDEAE1D;
  0x9B64C2B0; 0xEC63F226; 0x756AA39C; 0x026D930A; 0x9C0906A9; 0xEB0E363F; 0x72076785; 0x05005713;
  0x95BF4A82; 0xE2B87A14; 0x7BB12BAE; 0x0CB61B38; 0x92D28E9B; 0xE5D5BE0D; 0x7CDCEFB7; 0x0BDBDF21;
  0x86D3D2D4; 0xF1D4E242; 0x68DDB3F8; 0x1FDA836E; 0x81BE16CD; 0xF6B9265B; 0x6FB077E1; 0x18B74777;
  0x88085AE6; 0xFF0F6A70; 0x66063BCA; 0x11010B5C; 0x8F659EFF; 0xF862AE69; 0x616BFFD3; 0x166CCF45;
  0xA00AE278; 0xD70DD2EE; 0x4E048354; 0x3903B3C2; 0xA7672661; 0xD06016F7; 0x4969474D; 0x3E6E77DB;
  0xAED16A4A; 0xD9D65ADC; 0x40DF0B66; 0x37D83BF0; 0xA9BCAE53; 0xDEBB9EC5; 0x47B2CF7F; 0x30B5FFE9;
  0xBDBDF21C; 0xCABAC28A; 0x53B39330; 0x24B4A3A6; 0xBAD03605; 0xCDD70693; 0x54DE5729; 0x23D967BF;
  0xB3667A2E; 0xC4614AB8; 0x5D681B02; 0x2A6F2B94; 0xB40BBE37; 0xC30C8EA1; 0x5A05DF1B; 0x2D02EF8D
].

Definition MASK32 : Z := 0xFFFFFFFF.

(** One iteration of the CRC loop:
    [lookupIndex = (crc ^ byte) & 0xFF; crc = (crc >> 8) ^ table[lookupIndex]]. *)
Definition crc32_step (crc : Z) (byte : Z) : Z :=
  let lookupIndex := Z.land (Z.lxor crc byte) 0xFF in
  Z.lxor (Z.shiftr crc 8) (nth (Z.to_nat lookupIndex) kiss_CRC32_Table 0).

Definition crc32_loop (crc : Z) (data : list Z) : Z := fold_left crc32_step data crc.

(** [~crc] on a [uint32_t]. *)
Definition u32_not (x : Z) : Z := Z.land (Z.lnot x) MASK32.

Definition kiss_crc32 (data : list Z) : Z := u32_not (crc32_loop MASK32 data).

Definition kiss_crc32_push (prev_crc : Z) (data : list Z) : Z :=
  let crc := if prev_crc =? 0 then Z.lxor prev_crc MASK32 else prev_crc in
  crc32_loop crc data.

(** [{(uint8_t)x, (uint8_t)(x >> 8)}], the byte split of a [uint16_t]. *)
Definition u16_bytes (x : Z) : list Z := [Z.land x 0xFF; Z.land (Z.shiftr x 8) 0xFF].

(** [{x & 0xFF, (x >> 8) & 0xFF, (x >> 16) & 0xFF, (x >> 24) & 0xFF}]. *)
Definition u32_bytes (x : Z) : list Z :=
  [Z.land x 0xFF; Z.land (Z.shiftr x 8) 0xFF; Z.land (Z.shiftr x 16) 0xFF;
   Z.land (Z.shiftr x 24) 0xFF].

Definition kiss_verify_crc32 (data : list Z) (expected_crc : Z) : Z :=
  if expected_crc =? kiss_crc32 data then KISS_OK else 1.

(** ** kiss_encode_crc32 *)
Definition kiss_encode_crc32 (k : kiss_instance) (data : list Z) (header : Z)
    : Z * kiss_instance :=
  match data with [] => (KISS_ERR_INVALID_PARAMS, k) | _ =>
  let '(err, k) := kiss_encode k data header in
  if negb (err =? KISS_OK) then (err, k) else
  let k := set_status k KISS_STATUS_NOTHING in
  let crc := kiss_crc32 data in
  if status_eqb (Status k) KISS_STATUS_ERROR_STATE then (KISS_ERR_STATUS, k) else
  let crc_b := [Z.land crc 0xFF; Z.land (Z.shiftr crc 8) 0xFF;
                Z.land (Z.shiftr crc 16) 0xFF; Z.land (Z.shiftr crc 24) 0xFF] in
  let '(err, k) := kiss_push_encode k crc_b in
  if negb (err =? KISS_OK) then (err, k) else
  (KISS_OK, set_status k KISS_STATUS_TRANSMITTING)
  end.

(** ** kiss_decode

    The result gathers what the C function leaves behind: its return code,
    the instance, the bytes it stored into [output] (in order), the value
    stored into [*output_length] and the one stored into [*header] (if any;
    [None] when the function returns before storing it). *)
Record dec_result := mk_dec {
  dec_rc : Z;
  dec_kiss : kiss_instance;
  dec_out : list Z;
  dec_len : option nat;
  dec_hdr : option Z
}.

(** [while (src < src_end && KISS_FEND == *src) src++;] *)
Fixpoint skip_fend (src : list Z) : list Z :=
  match src with
  | b :: rest => if b =? KISS_FEND then skip_fend rest else src
  | [] => []
  end.

(** The payload loop: returns the exit code of the loop ([KISS_OK] at the
    terminating FEND or at [src_end]) and the bytes stored through [dst];
    [room] is [dst_end - dst]. *)
Fixpoint decode_loop (src : list Z) (room : nat) : Z * list Z :=
  match src with
  | [] => (KISS_OK, [])
  | b :: src1 =>
      if b =? KISS_FEND then (KISS_OK, []) else
      if b =? KISS_FESC then
        match src1 with
        | [] => (KISS_ERR_INVALID_FRAME, [])
        | b2 :: src2 =>
            if b2 =? KISS_TFEND then
              match room with
              | O => (KISS_ERR_BUFFER_OVERFLOW, [])
              | S r => let '(rc, w) := decode_loop src2 r in (rc, KISS_FEND :: w)
              end
            else if b2 =? KISS_TFESC then
              match room with
              | O => (KISS_ERR_BUFFER_OVERFLOW, [])
              | S r => let '(rc, w) := decode_loop src2 r in (rc, KISS_FESC :: w)
              end
            else (KISS_ERR_INVALID_FRAME, [])
        end
      else
        match room with
        | O => (KISS_ERR_BUFFER_OVERFLOW, [])
        | S r => let '(rc, w) := decode_loop src1 r in (rc, b :: w)
        end
  end.

(** The bytes [kiss->buffer[0 .. kiss->index)]. *)
Definition valid_bytes (k : kiss_instance) : list Z := firstn (index k) (buffer k).

Definition kiss_decode_body (k : kiss_instance) (val : Z) (src : list Z)
    (output_max_size : nat) : dec_result :=
  let '(rc, w) := decode_loop src output_max_size in
  if rc =? KISS_ERR_INVALID_FRAME then
    mk_dec rc (set_status k KISS_STATUS_ERROR_STATE) w None (Some val)
  else if rc =? KISS_ERR_BUFFER_OVERFLOW then
    mk_dec rc k w None (Some val)
  else mk_dec KISS_OK k w (Some (length w)) (Some val).

Definition kiss_decode (k : kiss_instance) (output_max_size : nat) : dec_result :=
  if negb (status_eqb (Status k) KISS_STATUS_RECEIVED)
  then mk_dec KISS_ERR_STATUS k [] None None else
  match skip_fend (valid_bytes k) with
  | [] => mk_dec KISS_ERR_INVALID_FRAME (set_status k KISS_STATUS_ERROR_STATE)
                 [] (Some 0%nat) None
  | val :: src =>
      if KISS_FESC =? val then
        match src with
        | [] => mk_dec KISS_ERR_INVALID_FRAME
                       (set_status k KISS_STATUS_ERROR_STATE) [] None None
        | v2 :: src2 =>
            if KISS_TFEND =? v2 then kiss_decode_body k KISS_FEND src2 output_max_size
            else if KISS_TFESC =? v2 then kiss_decode_body k KISS_FESC src2 output_max_size
            else mk_dec KISS_ERR_INVALID_FRAME
                        (set_status k KISS_STATUS_ERROR_STATE) [] None None
        end
      else if KISS_FEND =? val then mk_dec KISS_OK k [] (Some 0%nat) None
      else kiss_decode_body k val src output_max_size
  end.

(** ** kiss_decode_crc32 *)
Definition kiss_decode_crc32 (k : kiss_instance) (max_out_size : nat) : dec_result :=
  if negb (status_eqb (Status k) KISS_STATUS_RECEIVED)
  then mk_dec KISS_ERR_NO_DATA_RECEIVED k [] None None else
  if (index k <? 4)%nat then mk_dec KISS_ERR_INVALID_FRAME k [] None None else
  let k := set_status k KISS_STATUS_NOTHING in
  let r := kiss_decode k max_out_size in
  if negb (dec_rc r =? KISS_OK)
  then mk_dec (dec_rc r) (set_status (dec_kiss r) KISS_STATUS_ERROR_STATE)
              (dec_out r) (dec_len r) (dec_hdr r) else
  let k := dec_kiss r in
  let output := dec_out r in
  let output_length := match dec_len r with Some n => n | None => O end in
  if (max_out_size <? output_length)%nat
  then mk_dec KISS_ERR_BUFFER_OVERFLOW (set_status k KISS_STATUS_RECEIVED_ERROR)
              output (dec_len r) (dec_hdr r) else
  if (output_length <? 4)%nat
  then mk_dec KISS_ERR_INVALID_FRAME (set_status k KISS_STATUS_RECEIVED_ERROR)
              output (dec_len r) (dec_hdr r) else
  let payload_len := (output_length - 4)%nat in
  let at_ i := nth (payload_len + i) output 0 in
  let received_crc := Z.lor (Z.lor (Z.lor (at_ 0%nat) (Z.shiftl (at_ 1%nat) 8))
                                   (Z.shiftl (at_ 2%nat) 16)) (Z.shiftl (at_ 3%nat) 24) in
  if negb (kiss_verify_crc32 (firstn payload_len output) received_crc =? KISS_OK)
  then mk_dec KISS_ERR_CRC32_MISMATCH (set_status k KISS_STATUS_RECEIVED_ERROR)
              output (Some payload_len) (dec_hdr r) else
  mk_dec KISS_OK (set_status k KISS_STATUS_RECEIVED) output (Some payload_len)
         (dec_hdr r).

(** ** kiss_receive_frame

    The [read] callback is a state-passing function of its private state
    [RS] (the context it owns): given [max_length] it returns its return
    code and the bytes it stores at the pointer it is given; the count it
    reports through [*read] is the number of those bytes.  Besides the
    C result, the model returns the callback's final state and the number
    of times the callback was invoked. *)
Section Receive.

Variable RS : Type.
Variable read_cb : RS -> nat -> RS * (Z * list Z).

(** The callback storing [data] at [&kiss->buffer[at]]. *)
Fixpoint store_block (k : kiss_instance) (at_ : nat) (data : list Z) : kiss_instance :=
  match data with
  | [] => k
  | b :: rest => store_block (store k at_ b) (S at_) rest
  end.

(** The inner [for (i = new_index; i < kiss->index; i++)] loop, [n] being
    the number of iterations left.  [Some rc] is a [return rc] from inside
    the loop; [None] means the loop ran to its end, with the new
    [frame_started] and [new_index]. *)
Fixpoint rx_scan (k : kiss_instance) (i n : nat) (frame_started : bool)
    (new_index : nat) : option Z * kiss_instance * bool * nat :=
  match n with
  | O => (None, k, frame_started, new_index)
  | S n' =>
      if negb frame_started then
        if KISS_FEND =? load k i then
          rx_scan (store k new_index (load k i)) (S i) n' true (S new_index)
        else rx_scan k (S i) n' frame_started new_index
      else if (0 <? i)%nat && (KISS_FEND =? load k i) && (new_index <=? 1)%nat then
        rx_scan k (S i) n' frame_started new_index
      else
        let k := store k new_index (load k i) in
        let new_index := S new_index in
        if KISS_FEND =? load k i then
          let k := set_index (set_status k KISS_STATUS_RECEIVED) new_index in
          if (new_index <? 3)%nat
          then (Some KISS_ERR_INVALID_FRAME, set_status k KISS_STATUS_ERROR_STATE,
                frame_started, new_index)
          else (Some KISS_OK, set_status k KISS_STATUS_RECEIVED, frame_started, new_index)
        else rx_scan k (S i) n' frame_started new_index
  end.

(** The outer [for (attempt = 0; attempt < maxAttempts; attempt++)] loop;
    [fuel] is the number of attempts left, [calls] counts the callback
    invocations so far. *)
Fixpoint rx_attempts (fuel : nat) (k : kiss_instance) (rs : RS)
    (frame_started : bool) (new_index calls : nat) : Z * kiss_instance * RS * nat :=
  match fuel with
  | O => (KISS_ERR_NO_DATA_RECEIVED, k, rs, calls)
  | S fuel' =>
      let '(rs, (err, data)) := read_cb rs (buffer_size k) in
      let k := store_block k new_index data in
      let k := set_index k (index k + length data) in
      if negb (err =? KISS_OK)
      then (err, set_status k KISS_STATUS_ERROR_STATE, rs, S calls)
      else
        match rx_scan k new_index (index k - new_index) frame_started new_index with
        | (Some rc, k, _, _) => (rc, k, rs, S calls)
        | (None, k, fs, ni) => rx_attempts fuel' k rs fs ni (S calls)
        end
  end.

Definition kiss_receive_frame (k : kiss_instance) (rs : RS) (maxAttempts : nat)
    : Z * kiss_instance * RS * nat :=
  if negb (read_set k) then (KISS_ERR_CALLBACK_MISSING, k, rs, O) else
  if (maxAttempts =? 0)%nat then (KISS_ERR_INVALID_PARAMS, k, rs, O) else
  let k := set_status (set_index k 0) KISS_STATUS_RECEIVING in
  rx_attempts maxAttempts k rs false 0 0.

End Receive.


(** ** kiss_extract_param

    Returns the C result, the instance, the value stored into [*ID] and,
    when the [param] branch runs ([max_param_size > 0] with non-NULL
    [param] and [param_length]), the bytes copied into [param] (their
    number is the value stored into [*param_length]). *)
Fixpoint copy_param (out : list Z) (i out_len room : nat) : list Z :=
  match room with
  | O => []
  | S r => if (i <? out_len)%nat then nth i out 0 :: copy_param out (S i) out_len r
           else []
  end.

Definition kiss_extract_param (k : kiss_instance) (max_param_size : nat)
    : Z * kiss_instance * option Z * option (list Z) :=
  if negb (status_eqb (Status k) KISS_STATUS_RECEIVED)
  then (KISS_ERR_NO_DATA_RECEIVED, k, None, None) else
  let r := kiss_decode k 256 in
  if negb (dec_rc r =? KISS_OK) then (dec_rc r, dec_kiss r, None, None) else
  let header := match dec_hdr r with Some h => h | None => 0 end in
  let out := dec_out r in
  let out_len := match dec_len r with Some n => n | None => O end in
  if ((negb (header =? KISS_HEADER_SET_PARAM)) && (negb (header =? KISS_HEADER_REQUEST_PARAM)))
     || (out_len <? 2)%nat
  then (KISS_ERR_INVALID_FRAME, dec_kiss r, None, None) else
  let ID := Z.lor (nth 0 out 0) (Z.shiftl (nth 1 out 0) 8) in
  if (0 <? max_param_size)%nat
  then (KISS_OK, dec_kiss r, Some ID, Some (copy_param out 2 out_len max_param_size))
  else (KISS_OK, dec_kiss r, Some ID, None).

(** ** The wire format, used to state properties of the code *)

(** Stuffing of one byte: [FEND -> FESC TFEND], [FESC -> FESC TFESC]. *)
Definition stuff_byte (b : Z) : list Z :=
  if b =? KISS_FEND then [KISS_FESC; KISS_TFEND]
  else if b =? KISS_FESC then [KISS_FESC; KISS_TFESC]
  else [b].

Definition stuff (data : list Z) : list Z := flat_map stuff_byte data.

(** Length of the frame [FEND | stuffed header | stuffed payload | FEND]. *)
Definition frame_length (header : Z) (data : list Z) : nat :=
  (2 + length (stuff_byte header) + length (stuff data))%nat.

(** The frame [FEND | stuffed header | stuffed payload | FEND]. *)
Definition kiss_frame (header : Z) (data : list Z) : list Z :=
  KISS_FEND :: stuff_byte header ++ stuff data ++ [KISS_FEND].

(** A stuffed byte sequence without FEND and without illegal or truncated
    escape ([FESC] followed by anything but [TFEND]/[TFESC], or last). *)
Fixpoint escapes_ok (l : list Z) : bool :=
  match l with
  | [] => true
  | b :: r =>
      if b =? KISS_FEND then false
      else if b =? KISS_FESC then
        match r with
        | [] => false
        | b2 :: r2 => ((b2 =? KISS_TFEND) || (b2 =? KISS_TFESC)) && escapes_ok r2
        end
      else escapes_ok r
  end.

Fixpoint unescape (l : list Z) : list Z :=
  match l with
  | [] => []
  | b :: r =>
      if b =? KISS_FESC then
        match r with
        | [] => []
        | b2 :: r2 => (if b2 =? KISS_TFEND then KISS_FEND else KISS_FESC) :: unescape r2
        end
      else b :: unescape r
  end.

(** Little-endian 16-bit identifier of a parameter payload. *)
Definition le16 (data : list Z) : Z := Z.lor (nth 0 data 0) (Z.shiftl (nth 1 data 0) 8).

(** ** Concrete inputs used by the witnesses and counterexamples *)

Definition blank_instance (bs : nat) : kiss_instance :=
  mk_kiss (repeat 0 bs) bs 0 0 true true KISS_STATUS_NOTHING 0 false.

Definition received_instance (frame : list Z) (bs : nat) : kiss_instance :=
  mk_kiss (frame ++ repeat 0 (bs - length frame)) bs (length frame) 0 true true
          KISS_STATUS_RECEIVED 0 false.

(** A [read] callback, its state being the number of calls so far: one
    noise byte on the first call, then noise filling [max_length] (four
    bytes at most); it never stores more than the [max_length] it is given. *)
Definition noise_reader (calls : nat) (max_length : nat) : nat * (Z * list Z) :=
  (S calls, (KISS_OK, firstn max_length (if (calls =? 0)%nat then [1] else [1; 1; 1; 1]))).

(** ** kiss_send_frame and the senders built on it

    The [write] callback is a state-passing function of its private state
    [WS] (the transport it owns): given the bytes [data[0 .. length)] it
    returns its new state and its return code.  It does not modify the
    instance it is passed. *)
Section Write.

Variable WS : Type.
Variable write_cb : WS -> list Z -> WS * Z.

(** [kiss_padding_block]: [KISS_MAX_PADDING] FEND bytes. *)
Definition kiss_padding_block : list Z := repeat KISS_FEND 32.

Definition kiss_send_frame (k : kiss_instance) (ws : WS) : Z * kiss_instance * WS :=
  if negb (write_set k) then (KISS_ERR_CALLBACK_MISSING, k, ws) else
  if negb (status_eqb (Status k) KISS_STATUS_TRANSMITTING)
  then (KISS_ERR_DATA_NOT_ENCODED, k, ws) else
  if padding k >? KISS_MAX_PADDING then (KISS_ERR_PADDING_OVERFLOW, k, ws) else
  let '(ws, err) :=
    if padding k >? 0
    then write_cb ws (firstn (Z.to_nat (padding k)) kiss_padding_block)
    else (ws, KISS_OK) in
  if negb (err =? KISS_OK) then (err, set_status k KISS_STATUS_ERROR_STATE, ws) else
  let '(ws, err) := write_cb ws (valid_bytes k) in
  if err =? KISS_OK then (KISS_OK, set_status k KISS_STATUS_TRANSMITTED, ws)
  else (err, set_status k KISS_STATUS_ERROR_STATE, ws).

Definition kiss_encode_and_send (k : kiss_instance) (ws : WS) (data : list Z)
    (header : Z) : Z * kiss_instance * WS :=
  let '(err, k) := kiss_encode k data header in
  if negb (err =? KISS_OK) then (err, k, ws) else
  kiss_send_frame k ws.

Definition kiss_set_TXdelay (k : kiss_instance) (ws : WS) (tx_delay : Z)
    : Z * kiss_instance * WS :=
  if tx_delay =? 0 then (KISS_ERR_INVALID_PARAMS, k, ws) else
  if (buffer_size k <? 4)%nat then (KISS_ERR_BUFFER_OVERFLOW, k, ws) else
  let k := mk_kiss (buffer k) (buffer_size k) (index k) tx_delay (write_set k)
                   (read_set k) (Status k) (padding k) (oob_write k) in
  kiss_encode_and_send k ws [tx_delay] KISS_HEADER_TX_DELAY.

Definition kiss_set_speed (k : kiss_instance) (ws : WS) (BaudRate : Z)
    : Z * kiss_instance * WS :=
  if BaudRate =? 0 then (KISS_ERR_INVALID_PARAMS, k, ws) else
  if (buffer_size k <? 7)%nat then (KISS_ERR_BUFFER_OVERFLOW, k, ws) else
  kiss_encode_and_send k ws (u32_bytes BaudRate) KISS_HEADER_SPEED.

(** [kiss_send_ack], [kiss_send_nack] and [kiss_send_ping] are the same
    code with [KISS_HEADER_ACK], [KISS_HEADER_NACK], [KISS_HEADER_PING]. *)
Definition kiss_send_control (header : Z) (k : kiss_instance) (ws : WS)
    : Z * kiss_instance * WS :=
  if (buffer_size k <? 3)%nat then (KISS_ERR_BUFFER_OVERFLOW, k, ws) else
  kiss_encode_and_send k ws [] header.

Definition kiss_send_ack := kiss_send_control KISS_HEADER_ACK.
Definition kiss_send_nack := kiss_send_control KISS_HEADER_NACK.
Definition kiss_send_ping := kiss_send_control KISS_HEADER_PING.

Definition kiss_set_param (k : kiss_instance) (ws : WS) (ID : Z) (param : list Z)
    : Z * kiss_instance * WS :=
  if (buffer_size k <? 5 + length param)%nat then (KISS_ERR_BUFFER_OVERFLOW, k, ws) else
  let id_ := u16_bytes ID in
  let '(err, k) := kiss_encode k id_ KISS_HEADER_SET_PARAM in
  if negb (err =? KISS_OK) then (err, k, ws) else
  let '(err, k) := kiss_push_encode k param in
  if negb (err =? KISS_OK) then (err, k, ws) else
  let k := set_status k KISS_STATUS_TRANSMITTING in
  kiss_send_frame k ws.

(** [kiss_crc32] and [kiss_crc32_push] are called with non-NULL data here,
    so they leave the status alone. *)
Definition kiss_set_param_crc32 (k : kiss_instance) (ws : WS) (ID : Z) (param : list Z)
    : Z * kiss_instance * WS :=
  let id_ := u16_bytes ID in
  let CRC := kiss_crc32 id_ in
  if status_eqb (Status k) KISS_STATUS_ERROR_STATE then (KISS_ERR_STATUS, k, ws) else
  let CRC := u32_not (kiss_crc32_push CRC param) in
  if status_eqb (Status k) KISS_STATUS_ERROR_STATE then (KISS_ERR_STATUS, k, ws) else
  let '(err, k) := kiss_encode k id_ KISS_HEADER_SET_PARAM in
  if negb (err =? KISS_OK) then (err, k, ws) else
  let '(err, k) := kiss_push_encode k param in
  if negb (err =? KISS_OK) then (err, k, ws) else
  let '(err, k) := kiss_push_encode k (u32_bytes CRC) in
  if negb (err =? KISS_OK) then (err, k, ws) else
  let k := set_status k KISS_STATUS_TRANSMITTING in
  kiss_send_frame k ws.

Definition kiss_encode_send_crc32 (k : kiss_instance) (ws : WS) (data : list Z)
    (header : Z) : Z * kiss_instance * WS :=
  let '(err, k) := kiss_encode_crc32 k data header in
  if negb (err =? KISS_OK) then (err, set_status k KISS_STATUS_ERROR_STATE, ws) else
  kiss_send_frame k ws.

Definition kiss_send_command (k : kiss_instance) (ws : WS) (command : Z)
    : Z * kiss_instance * WS :=
  kiss_encode_and_send k ws (u16_bytes command) KISS_HEADER_COMMAND.

End Write.

(** [kiss_send_command_crc32] never calls [write]. *)
Definition kiss_send_command_crc32 (k : kiss_instance) (command : Z) : Z * kiss_instance :=
  kiss_encode_crc32 k (u16_bytes command) KISS_HEADER_COMMAND.

(** ** kiss_receive_and_decode

    [output] and [output_length] are non-NULL; the result carries the
    decoder's outputs ([dec_out] are the bytes written to [output]), the
    [read] callback's final state and the number of its invocations. *)
Definition kiss_receive_and_decode (RS : Type) (read_cb : RS -> nat -> RS * (Z * list Z))
    (k : kiss_instance) (rs : RS) (output_max_size maxAttempts : nat)
    : dec_result * RS * nat :=
  if (buffer_size k =? 0)%nat then (mk_dec KISS_ERR_INVALID_PARAMS k [] None None, rs, O) else
  if (maxAttempts =? 0)%nat then (mk_dec KISS_ERR_INVALID_PARAMS k [] None None, rs, O) else
  let '(err, k, rs, calls) := kiss_receive_frame RS read_cb k rs maxAttempts in
  if negb (err =? KISS_OK) then (mk_dec err k [] None None, rs, calls) else
  (kiss_decode k output_max_size, rs, calls).

(** ** kiss_request_param / kiss_request_param_crc32

    Both send a request through [write] and wait for the answer through
    [read].  The local [uint8_t header] is only assigned by the decoder when
    it stores a header; [header_init] stands for its initial (indeterminate)
    content.  The result carries the C result, the instance, the states of
    the two callbacks and the bytes stored into [output]. *)
Definition kiss_request_param (WS RS : Type) (write_cb : WS -> list Z -> WS * Z)
    (read_cb : RS -> nat -> RS * (Z * list Z)) (header_init : Z)
    (k : kiss_instance) (ws : WS) (rs : RS) (ID : Z) (max_out_size maxAttempts : nat)
    (expected_header : Z) : Z * kiss_instance * WS * RS * list Z :=
  if (buffer_size k <? 5)%nat then (KISS_ERR_BUFFER_OVERFLOW, k, ws, rs, []) else
  let id_ := u16_bytes ID in
  let '(err, k) := kiss_encode k id_ KISS_HEADER_REQUEST_PARAM in
  if negb (err =? KISS_OK) then (err, k, ws, rs, []) else
  let k := set_status k KISS_STATUS_TRANSMITTING in
  let '(err, k, ws) := kiss_send_frame WS write_cb k ws in
  if negb (err =? KISS_OK) then (err, k, ws, rs, []) else
  let '(r, rs, _) := kiss_receive_and_decode RS read_cb k rs max_out_size maxAttempts in
  if negb (dec_rc r =? KISS_OK) then (dec_rc r, dec_kiss r, ws, rs, dec_out r) else
  let header := match dec_hdr r with Some h => h | None => header_init end in
  if negb (header =? expected_header)
  then (KISS_ERR_INVALID_FRAME, dec_kiss r, ws, rs, dec_out r)
  else (dec_rc r, dec_kiss r, ws, rs, dec_out r).

Definition kiss_request_param_crc32 (WS RS : Type) (write_cb : WS -> list Z -> WS * Z)
    (read_cb : RS -> nat -> RS * (Z * list Z)) (header_init : Z)
    (k : kiss_instance) (ws : WS) (rs : RS) (ID : Z) (max_out_size maxAttempts : nat)
    (expected_header : Z) : Z * kiss_instance * WS * RS * list Z :=
  if (buffer_size k <? 5)%nat then (KISS_ERR_BUFFER_OVERFLOW, k, ws, rs, []) else
  let id_ := u16_bytes ID in
  let '(err, k) := kiss_encode_crc32 k id_ KISS_HEADER_SET_PARAM in
  if negb (err =? KISS_OK) then (err, k, ws, rs, []) else
  let k := set_status k KISS_STATUS_TRANSMITTING in
  let '(err, k, ws) := kiss_send_frame WS write_cb k ws in
  if negb (err =? KISS_OK) then (err, k, ws, rs, []) else
  let '(err, k, rs, _) := kiss_receive_frame RS read_cb k rs 1 in
  if negb (err =? KISS_OK) then (err, k, ws, rs, []) else
  let r := kiss_decode_crc32 k max_out_size in
  if negb (dec_rc r =? KISS_OK) then (dec_rc r, dec_kiss r, ws, rs, dec_out r) else
  let header := match dec_hdr r with Some h => h | None => header_init end in
  if negb (header =? expected_header)
  then (KISS_ERR_INVALID_FRAME, dec_kiss r, ws, rs, dec_out r)
  else (KISS_OK, dec_kiss r, ws, rs, dec_out r).

(** ** Bit-by-bit reflected CRC-32 (IEEE 802.3, polynomial 0xEDB88320),
    used to state what the table-driven [kiss_crc32] computes *)
Definition crc32_bit_step (c : Z) : Z :=
  if Z.odd c then Z.lxor (Z.shiftr c 1) 0xEDB88320 else Z.shiftr c 1.

Fixpoint crc32_bits (n : nat) (c : Z) : Z :=
  match n with
  | O => c
  | S n' => crc32_bits n' (crc32_bit_step c)
  end.

Definition crc32_bitwise (data : list Z) : Z :=
  u32_not (fold_left (fun c b => crc32_bits 8 (Z.lxor c b)) data MASK32).

(** The byte split [KISS_BYTE_TO_UINT16] / [KISS_BYTE_TO_UINT32] undo. *)
Definition KISS_BYTE_TO_UINT16 (b0 b1 : Z) : Z := Z.lor b0 (Z.shiftl b1 8).
Definition KISS_BYTE_TO_UINT32 (b0 b1 b2 b3 : Z) : Z :=
  Z.lor (Z.lor (Z.lor b0 (Z.shiftl b1 8)) (Z.shiftl b2 16)) (Z.shiftl b3 24).

(** A [write] callback that records every block it is given and accepts it. *)
Definition log_writer (log : list (list Z)) (data : list Z) : list (list Z) * Z :=
  (log ++ [data], KISS_OK).

(** The fields only [kiss_init] and [kiss_set_TXdelay] set. *)
Definition same_config (k k' : kiss_instance) : Prop :=
  buffer_size k' = buffer_size k /\ TXdelay k' = TXdelay k /\ write_set k' = write_set k /\
  read_set k' = read_set k /\ padding k' = padding k.

(** The blocks [kiss_send_frame] writes before the frame: [padding] FEND
    bytes, when [padding > 0]. *)
Definition padding_writes (p : Z) : list (list Z) :=
  if 0 <? p then [repeat KISS_FEND (Z.to_nat p)] else [].

(** A [read] callback that delivers a fixed block on its first call (at most
    [max_length] bytes of it) and nothing afterwards. *)
Definition block_reader (block : list Z) (calls : nat) (max_length : nat)
    : nat * (Z * list Z) :=
  (S calls, (KISS_OK, if (calls =? 0)%nat then firstn max_length block else [])).

(** ** Basic facts about the state updates *)

Create Rewrite HintDb kiss_simpl.

Lemma status_eqb_true a b : status_eqb a b = true <-> a = b.
Proof. destruct a, b; simpl; split; intro H; congruence. Qed.

Lemma status_eqb_refl a : status_eqb a a = true.
Proof. now apply status_eqb_true. Qed.

Lemma upd_length l i v : length (upd l i v) = length l.
Proof. revert i; induction l; intros [|i]; simpl; auto. Qed.

Lemma upd_upd l i v w : upd (upd l i v) i w = upd l i w.
Proof. revert i; induction l; intros [|i]; simpl; f_equal; auto. Qed.

Lemma firstn_upd_S l i v :
  (i < length l)%nat -> firstn (S i) (upd l i v) = firstn i l ++ [v].
Proof.
  revert i; induction l as [|x l IH]; intros [|i] H; simpl in *; try lia; auto.
  rewrite IH by lia; reflexivity.
Qed.

Lemma nth_upd_same l i v d : (i < length l)%nat -> nth i (upd l i v) d = v.
Proof. revert i; induction l; intros [|i] H; simpl in *; try lia; auto with arith. Qed.

Lemma put_index k v : index (put k v) = S (index k).
Proof. reflexivity. Qed.

Lemma put_buffer_size k v : buffer_size (put k v) = buffer_size k.
Proof. unfold put, store; destruct (_ <? _)%nat; reflexivity. Qed.

Lemma put_Status k v : Status (put k v) = Status k.
Proof. unfold put, store; destruct (_ <? _)%nat; reflexivity. Qed.

Lemma put_length k v : length (buffer (put k v)) = length (buffer k).
Proof. unfold put, store; destruct (_ <? _)%nat; simpl; auto using upd_length. Qed.

Lemma put_oob k v : (index k < buffer_size k)%nat -> oob_write (put k v) = oob_write k.
Proof. intro H; unfold put, store; apply Nat.ltb_lt in H; rewrite H; reflexivity. Qed.

Lemma put_valid k v :
  (index k < buffer_size k)%nat -> length (buffer k) = buffer_size k ->
  valid_bytes (put k v) = valid_bytes k ++ [v].
Proof.
  intros H L; unfold put, store, valid_bytes; apply Nat.ltb_lt in H as H'; rewrite H'; simpl.
  apply firstn_upd_S; lia.
Qed.

Lemma set_status_index k s : index (set_status k s) = index k.
Proof. reflexivity. Qed.
Lemma set_status_buffer_size k s : buffer_size (set_status k s) = buffer_size k.
Proof. reflexivity. Qed.
Lemma set_status_Status k s : Status (set_status k s) = s.
Proof. reflexivity. Qed.
Lemma set_status_oob k s : oob_write (set_status k s) = oob_write k.
Proof. reflexivity. Qed.
Lemma set_status_length k s : length (buffer (set_status k s)) = length (buffer k).
Proof. reflexivity. Qed.
Lemma set_status_valid k s : valid_bytes (set_status k s) = valid_bytes k.
Proof. reflexivity. Qed.

#[export] Hint Rewrite put_index put_buffer_size put_Status put_length
  set_status_index set_status_buffer_size set_status_Status set_status_oob
  set_status_length set_status_valid : kiss_simpl.

Lemma put_set_status k s v : put (set_status k s) v = set_status (put k v) s.
Proof. unfold put, store, set_status, set_index; simpl; destruct (_ <? _)%nat; reflexivity. Qed.

Lemma set_status_twice k s t : set_status (set_status k s) t = set_status k t.
Proof. reflexivity. Qed.

Lemma stuff_cons b data : stuff (b :: data) = stuff_byte b ++ stuff data.
Proof. reflexivity. Qed.

Lemma stuff_app a b : stuff (a ++ b) = stuff a ++ stuff b.
Proof. unfold stuff; apply flat_map_app. Qed.

(** ** The stuffing loop *)

Lemma kiss_stuff_loop_app k a b :
  kiss_stuff_loop k (a ++ b) =
  match kiss_stuff_loop k a with
  | (rc, k1) => if rc =? KISS_OK then kiss_stuff_loop k1 b else (rc, k1)
  end.
Proof.
  revert k; induction a as [|x a IH]; intro k; simpl; [reflexivity|].
  repeat (destruct (_ =? _); [|]); repeat (destruct (_ <? _)%nat); simpl; auto.
Qed.

Lemma kiss_stuff_loop_set_status k s data :
  kiss_stuff_loop (set_status k s) data =
  match kiss_stuff_loop k data with
  | (rc, k1) => (rc, if rc =? KISS_OK then set_status k1 s else k1)
  end.
Proof.
  revert k; induction data as [|x data IH]; intro k; simpl; [reflexivity|].
  destruct (x =? KISS_FEND); [|destruct (x =? KISS_FESC)];
    destruct (_ <? _)%nat; simpl; try reflexivity;
    rewrite ?put_set_status, IH; reflexivity.
Qed.

(** The loop either stuffs the whole payload (when it fits) or stops with
    [BufferOverflow] in [ErrorState]; it never stores out of bounds. *)
Lemma kiss_stuff_loop_spec k data :
  (index k <= buffer_size k)%nat ->
  let '(rc, k') := kiss_stuff_loop k data in
  buffer_size k' = buffer_size k /\ oob_write k' = oob_write k /\
  length (buffer k') = length (buffer k) /\
  ((index k + length (stuff data) <= buffer_size k)%nat /\ rc = KISS_OK /\
     index k' = (index k + length (stuff data))%nat /\ Status k' = Status k /\
     (length (buffer k) = buffer_size k -> valid_bytes k' = valid_bytes k ++ stuff data)
   \/ (buffer_size k < index k + length (stuff data))%nat /\
     rc = KISS_ERR_BUFFER_OVERFLOW /\ Status k' = KISS_STATUS_ERROR_STATE).
Proof.
  revert k; induction data as [|x data IH]; intros k Hk; simpl.
  - repeat split; auto. left; rewrite Nat.add_0_r, app_nil_r; repeat split; auto; lia.
  - unfold stuff_byte.
    destruct (x =? KISS_FEND) eqn:E1; [|destruct (x =? KISS_FESC) eqn:E2].
    + destruct (buffer_size k <? index k + 2)%nat eqn:C.
      * apply Nat.ltb_lt in C. simpl; repeat split; auto. right; repeat split; auto; lia.
      * apply Nat.ltb_ge in C.
        specialize (IH (put (put k KISS_FESC) KISS_TFEND)).
        autorewrite with kiss_simpl in IH. specialize (IH ltac:(lia)).
        destruct (kiss_stuff_loop _ data) as [rc k'].
        rewrite put_oob, put_oob in IH by (autorewrite with kiss_simpl; lia).
        destruct IH as (IH1 & IH2 & IH3 & [(IH4 & IH5 & IH6 & IH7 & IH8)|(IH4 & IH5 & IH6)]);
          repeat split; auto.
        -- left; simpl length; repeat split; auto; try lia.
           intro L; rewrite IH8 by (autorewrite with kiss_simpl; auto).
           rewrite !put_valid by (autorewrite with kiss_simpl; lia).
           rewrite <- !app_assoc; reflexivity.
        -- right; simpl length; repeat split; auto; lia.
    + destruct (buffer_size k <? index k + 2)%nat eqn:C.
      * apply Nat.ltb_lt in C. simpl; repeat split; auto. right; repeat split; auto; lia.
      * apply Nat.ltb_ge in C.
        specialize (IH (put (put k KISS_FESC) KISS_TFESC)).
        autorewrite with kiss_simpl in IH. specialize (IH ltac:(lia)).
        destruct (kiss_stuff_loop _ data) as [rc k'].
        rewrite put_oob, put_oob in IH by (autorewrite with kiss_simpl; lia).
        destruct IH as (IH1 & IH2 & IH3 & [(IH4 & IH5 & IH6 & IH7 & IH8)|(IH4 & IH5 & IH6)]);
          repeat split; auto.
        -- left; simpl length; repeat split; auto; try lia.
           intro L; rewrite IH8 by (autorewrite with kiss_simpl; auto).
           rewrite !put_valid by (autorewrite with kiss_simpl; lia).
           rewrite <- !app_assoc; reflexivity.
        -- right; simpl length; repeat split; auto; lia.
    + destruct (buffer_size k <? index k + 1)%nat eqn:C.
      * apply Nat.ltb_lt in C. simpl; repeat split; auto. right; repeat split; auto; lia.
      * apply Nat.ltb_ge in C.
        specialize (IH (put k x)).
        autorewrite with kiss_simpl in IH. specialize (IH ltac:(lia)).
        destruct (kiss_stuff_loop _ data) as [rc k'].
        rewrite put_oob in IH by lia.
        destruct IH as (IH1 & IH2 & IH3 & [(IH4 & IH5 & IH6 & IH7 & IH8)|(IH4 & IH5 & IH6)]);
          repeat split; auto.
        -- left; simpl length; repeat split; auto; try lia.
           intro L; rewrite IH8 by (autorewrite with kiss_simpl; auto).
           rewrite put_valid by lia.
           rewrite <- !app_assoc; reflexivity.
        -- right; simpl length; repeat split; auto; lia.
Qed.

(** ** kiss_encode *)

Lemma put_list_spec k l :
  (index k + length l <= buffer_size k)%nat ->
  let k' := fold_left put l k in
  index k' = (index k + length l)%nat /\ buffer_size k' = buffer_size k /\
  Status k' = Status k /\ oob_write k' = oob_write k /\
  length (buffer k') = length (buffer k) /\
  (length (buffer k) = buffer_size k -> valid_bytes k' = valid_bytes k ++ l).
Proof.
  revert k; induction l as [|v l IH]; intros k H; simpl.
  - rewrite Nat.add_0_r, app_nil_r; repeat split; auto.
  - simpl in H. destruct (IH (put k v)) as (I1 & I2 & I3 & I4 & I5 & I6);
      autorewrite with kiss_simpl; try lia.
    rewrite put_oob in I4 by lia. autorewrite with kiss_simpl in *.
    repeat split; auto; try lia.
    intro L; rewrite I6 by (autorewrite with kiss_simpl; auto).
    rewrite put_valid by lia. rewrite <- app_assoc; reflexivity.
Qed.

Lemma encode_header_stage k header :
  (if KISS_FESC =? header then put (put k KISS_FESC) KISS_TFESC
   else if KISS_FEND =? header then put (put k KISS_FESC) KISS_TFEND
   else put k header) = fold_left put (stuff_byte header) k.
Proof.
  unfold stuff_byte; rewrite (Z.eqb_sym KISS_FESC), (Z.eqb_sym KISS_FEND).
  destruct (header =? KISS_FEND) eqn:E1, (header =? KISS_FESC) eqn:E2; try reflexivity.
  apply Z.eqb_eq in E1, E2; rewrite E1 in E2; discriminate.
Qed.

Lemma stuff_byte_length b : (1 <= length (stuff_byte b) <= 2)%nat.
Proof. unfold stuff_byte; destruct (_ =? _); [|destruct (_ =? _)]; simpl; lia. Qed.

(** [kiss_encode] succeeds exactly when the whole frame fits; it never
    stores out of bounds. *)
Lemma kiss_encode_spec k data header :
  let '(rc, k') := kiss_encode k data header in
  oob_write k' = oob_write k /\ buffer_size k' = buffer_size k /\
  length (buffer k') = length (buffer k) /\
  ((frame_length header data <= buffer_size k)%nat /\ rc = KISS_OK /\
     index k' = frame_length header data /\ Status k' = KISS_STATUS_TRANSMITTING /\
     (length (buffer k) = buffer_size k ->
      valid_bytes k' = KISS_FEND :: stuff_byte header ++ stuff data ++ [KISS_FEND])
   \/ (buffer_size k < frame_length header data)%nat /\ rc = KISS_ERR_BUFFER_OVERFLOW /\
     Status k' = (if (buffer_size k <? 3)%nat then Status k else KISS_STATUS_ERROR_STATE)).
Proof.
  pose proof (stuff_byte_length header) as Hsb.
  unfold kiss_encode, frame_length.
  destruct (buffer_size k <? 3)%nat eqn:B.
  { apply Nat.ltb_lt in B. repeat split; auto. right; repeat split; auto; lia. }
  apply Nat.ltb_ge in B.
  rewrite encode_header_stage.
  set (k0 := put (set_index k 0) KISS_FEND).
  assert (K0 : index k0 = 1%nat /\ buffer_size k0 = buffer_size k /\ Status k0 = Status k /\
               oob_write k0 = oob_write k /\ length (buffer k0) = length (buffer k) /\
               (length (buffer k) = buffer_size k -> valid_bytes k0 = [KISS_FEND])).
  { subst k0; rewrite put_oob by (simpl; lia). autorewrite with kiss_simpl.
    repeat split; auto. intro L; rewrite put_valid by (simpl; lia). reflexivity. }
  destruct K0 as (K1 & K2 & K3 & K4 & K5 & K6).
  destruct (put_list_spec k0 (stuff_byte header)) as (H1 & H2 & H3 & H4 & H5 & H6); [lia|].
  set (kh := fold_left put (stuff_byte header) k0) in *.
  pose proof (kiss_stuff_loop_spec kh data ltac:(lia)) as HL.
  destruct (kiss_stuff_loop kh data) as [rc k1].
  destruct HL as (L1 & L2 & L3 & [(L4 & L5 & L6 & L7 & L8)|(L4 & L5 & L6)]).
  - subst rc; simpl.
    destruct (buffer_size k1 <? index k1 + 1)%nat eqn:C.
    + apply Nat.ltb_lt in C. autorewrite with kiss_simpl. repeat split; try congruence. right; repeat split; auto; lia.
    + apply Nat.ltb_ge in C. autorewrite with kiss_simpl. rewrite put_oob by lia.
      repeat split; try congruence.
      left; repeat split; auto; try lia.
      intro L. rewrite put_valid by (first [lia | congruence]).
      rewrite L8, H6, K6 by congruence. rewrite <- !app_assoc; reflexivity.
  - subst rc; simpl. autorewrite with kiss_simpl. repeat split; try congruence. right; repeat split; auto; lia.
Qed.

(** ** kiss_push_encode after kiss_encode *)

Lemma set_index_same k : set_index k (index k) = k.
Proof. destruct k; reflexivity. Qed.

Lemma store_index k i v : index (store k i v) = index k.
Proof. unfold store; destruct (_ <? _)%nat; reflexivity. Qed.

Lemma put_store_same k v w :
  (index k < buffer_size k)%nat -> put (store k (index k) v) w = put k w.
Proof.
  intro H; apply Nat.ltb_lt in H.
  unfold put; rewrite store_index; unfold store; rewrite H; simpl; rewrite H.
  rewrite upd_upd; reflexivity.
Qed.

(** A byte stored at [index] is overwritten by the first step of the
    stuffing loop, or left behind when that step overflows. *)
Lemma kiss_stuff_loop_store_head k v b data :
  (index k < buffer_size k)%nat ->
  let '(rc, k') := kiss_stuff_loop (store k (index k) v) (b :: data) in
  let '(rc0, k0) := kiss_stuff_loop k (b :: data) in
  rc = rc0 /\ index k' = index k0 /\ Status k' = Status k0 /\
  oob_write k' = oob_write k0 /\ buffer_size k' = buffer_size k0 /\
  (rc = KISS_OK -> k' = k0).
Proof.
  intro H. assert (Hs : buffer_size (store k (index k) v) = buffer_size k)
    by (unfold store; destruct (_ <? _)%nat; reflexivity).
  assert (Ho : oob_write (store k (index k) v) = oob_write k)
    by (unfold store; apply Nat.ltb_lt in H; rewrite H; reflexivity).
  simpl; rewrite Hs, store_index.
  destruct (b =? KISS_FEND); [|destruct (b =? KISS_FESC)];
    (destruct (_ <? _)%nat eqn:C;
     [ simpl; rewrite ?store_index; repeat split; auto; discriminate
     | rewrite put_store_same by auto;
       destruct (kiss_stuff_loop _ data); repeat split; auto ]).
Qed.

(** Appending [B] with [kiss_push_encode] to a frame built by [kiss_encode]
    gives what [kiss_encode] gives on [A ++ B]. *)
Lemma push_encode_after_encode k A B header :
  length (buffer k) = buffer_size k -> B <> [] ->
  fst (kiss_encode k A header) = KISS_OK ->
  let '(rc2, k2) := kiss_push_encode (snd (kiss_encode k A header)) B in
  let '(rc3, k3) := kiss_encode k (A ++ B) header in
  rc2 = rc3 /\ index k2 = index k3 /\ Status k2 = Status k3 /\
  oob_write k2 = oob_write k3 /\ (rc3 = KISS_OK -> k2 = k3).
Proof.
  intros Len HB Hok.
  pose proof (kiss_encode_spec k A header) as SA.
  unfold kiss_encode in *.
  destruct (buffer_size k <? 3)%nat eqn:B3; [discriminate|].
  rewrite encode_header_stage in *.
  set (kh := fold_left put (stuff_byte header) (put (set_index k 0) KISS_FEND)) in *.
  rewrite kiss_stuff_loop_app.
  assert (LK : length (buffer kh) = buffer_size kh).
  { subst kh. apply Nat.ltb_ge in B3. pose proof (stuff_byte_length header).
    destruct (put_list_spec (put (set_index k 0) KISS_FEND) (stuff_byte header))
      as (_ & I2 & _ & _ & I5 & _); [autorewrite with kiss_simpl; simpl; lia|].
    rewrite I5, I2; autorewrite with kiss_simpl; exact Len. }
  assert (IK : (index kh <= buffer_size kh)%nat).
  { subst kh. apply Nat.ltb_ge in B3. pose proof (stuff_byte_length header).
    destruct (put_list_spec (put (set_index k 0) KISS_FEND) (stuff_byte header))
      as (I1 & I2 & _ & _ & _ & _); [autorewrite with kiss_simpl; simpl; lia|].
    rewrite I1, I2; autorewrite with kiss_simpl; simpl; lia. }
  pose proof (kiss_stuff_loop_spec kh A IK) as LA.
  destruct (kiss_stuff_loop kh A) as [rcA kA].
  destruct LA as (A1 & A2 & A3 & [(A4 & A5 & A6 & A7 & A8)|(A4 & A5 & A6)]);
    [|subst rcA; discriminate].
  subst rcA; simpl in *.
  destruct (buffer_size kA <? index kA + 1)%nat eqn:CA; [discriminate|].
  apply Nat.ltb_ge in CA. simpl.
  destruct B as [|b B']; [congruence|]. unfold kiss_push_encode. cbv iota beta.
  rewrite set_status_Status; simpl status_eqb; cbv iota beta.
  rewrite set_status_index, put_index. simpl (S (index kA) =? 0)%nat. cbv iota.
  assert (LD : load (set_status (put kA KISS_FEND) KISS_STATUS_TRANSMITTING)
                 (S (index kA) - 1) = KISS_FEND).
  { unfold load, put, store; simpl. replace (index kA - 0)%nat with (index kA) by lia.
    assert (Hl : (index kA <? buffer_size kA)%nat = true) by (apply Nat.ltb_lt; lia).
    rewrite Hl; simpl. apply nth_upd_same. lia. }
  rewrite LD, Z.eqb_refl; simpl negb; cbv iota.
  replace (set_index (set_status (put kA KISS_FEND) KISS_STATUS_TRANSMITTING)
             (S (index kA) - 1))
    with (set_status (store kA (index kA) KISS_FEND) KISS_STATUS_TRANSMITTING)
    by (unfold put; destruct (store kA (index kA) KISS_FEND) eqn:St;
        pose proof (store_index kA (index kA) KISS_FEND) as Si; rewrite St in Si;
        simpl in *; unfold set_status, set_index; simpl; f_equal; lia).
  rewrite kiss_stuff_loop_set_status.
  pose proof (kiss_stuff_loop_store_head kA KISS_FEND b B' ltac:(lia)) as HD.
  destruct (kiss_stuff_loop (store kA (index kA) KISS_FEND) (b :: B')) as [rcB kB].
  destruct (kiss_stuff_loop kA (b :: B')) as [rcB0 kB0].
  destruct HD as (D1 & D2 & D3 & D4 & D5 & D6). subst rcB0.
  destruct (rcB =? KISS_OK) eqn:OK.
  - apply Z.eqb_eq in OK. specialize (D6 OK). subst kB0 rcB. cbn [negb]. autorewrite with kiss_simpl.
    destruct (buffer_size kB <? index kB + 1)%nat; cbv iota beta.
    + repeat split; auto.
    + rewrite put_set_status; repeat split; auto.
  - simpl. repeat split; auto; intro E; rewrite E in OK; discriminate.
Qed.

(** ** kiss_decode *)

Lemma skip_fend_frame fends x l :
  Forall (eq KISS_FEND) fends -> x <> KISS_FEND ->
  skip_fend (fends ++ x :: l) = x :: l.
Proof.
  intros HF Hx; induction HF as [|f fends Hf HF IH]; simpl.
  - apply Z.eqb_neq in Hx; rewrite Hx; reflexivity.
  - subst f; rewrite Z.eqb_refl; exact IH.
Qed.

Lemma decode_loop_rc src room :
  let '(rc, _) := decode_loop src room in
  rc = KISS_OK \/ rc = KISS_ERR_INVALID_FRAME \/ rc = KISS_ERR_BUFFER_OVERFLOW.
Proof.
  revert room; induction src as [src IH] using (well_founded_induction
    (well_founded_ltof _ (@length Z))); intro room.
  destruct src as [|b0 src]; simpl; [auto|].
  destruct (b0 =? KISS_FEND); [auto|].
  destruct (b0 =? KISS_FESC).
  - destruct src as [|b2 src2]; [auto|].
    destruct (b2 =? KISS_TFEND); [|destruct (b2 =? KISS_TFESC)]; auto;
      (destruct room as [|r]; [auto|]);
      specialize (IH src2 ltac:(unfold ltof; simpl; lia) r);
      destruct (decode_loop src2 r); exact IH.
  - destruct room as [|r]; [auto|].
    specialize (IH src ltac:(unfold ltof; simpl; lia) r); destruct (decode_loop src r); exact IH.
Qed.

(** A payload stuffed by the encoder and closed by FEND decodes back to
    itself when it fits in [room] bytes. *)
Lemma decode_loop_stuff_ok P rest room :
  (length P <= room)%nat ->
  decode_loop (stuff P ++ KISS_FEND :: rest) room = (KISS_OK, P).
Proof.
  revert room; induction P as [|p P IH]; intros room H; simpl in *.
  - reflexivity.
  - destruct room as [|r]; [lia|].
    unfold stuff_byte. destruct (p =? KISS_FEND) eqn:E1; [|destruct (p =? KISS_FESC) eqn:E2];
      simpl; rewrite ?IH by lia.
    + apply Z.eqb_eq in E1; subst p; reflexivity.
    + apply Z.eqb_eq in E2; subst p; reflexivity.
    + rewrite E1, E2; reflexivity.
Qed.

(** When the payload does not fit, the loop stops after [room] bytes. *)
Lemma decode_loop_stuff_overflow P rest room :
  (room < length P)%nat ->
  decode_loop (stuff P ++ rest) room = (KISS_ERR_BUFFER_OVERFLOW, firstn room P).
Proof.
  revert room; induction P as [|p P IH]; intros room H; simpl in *; [lia|].
  unfold stuff_byte. destruct (p =? KISS_FEND) eqn:E1; [|destruct (p =? KISS_FESC) eqn:E2];
    simpl; (destruct room as [|r]; [rewrite ?E1, ?E2; reflexivity|]);
    rewrite ?E1, ?E2, IH by lia.
  - apply Z.eqb_eq in E1; subst p; reflexivity.
  - apply Z.eqb_eq in E2; subst p; reflexivity.
  - reflexivity.
Qed.

(** An unterminated, correctly escaped body decodes to its unescaping. *)
Lemma decode_loop_escaped body room :
  escapes_ok body = true ->
  decode_loop body room =
  if (length (unescape body) <=? room)%nat then (KISS_OK, unescape body)
  else (KISS_ERR_BUFFER_OVERFLOW, firstn room (unescape body)).
Proof.
  revert room; induction body as [body IH] using (well_founded_induction
    (well_founded_ltof _ (@length Z))); intros room Hok.
  destruct body as [|b0 body]; simpl; [reflexivity|].
  simpl in Hok. destruct (b0 =? KISS_FEND) eqn:E0; [discriminate|].
  destruct (b0 =? KISS_FESC) eqn:E1.
  - destruct body as [|b2 body2]; [discriminate|].
    apply andb_true_iff in Hok as [Hb Hok].
    specialize (IH body2 ltac:(unfold ltof; simpl; lia)).
    destruct (b2 =? KISS_TFEND) eqn:E2; [|destruct (b2 =? KISS_TFESC) eqn:E3; [|discriminate]];
      (destruct room as [|r]; [reflexivity|]); rewrite (IH r Hok); simpl;
      destruct (length (unescape body2) <=? r)%nat; reflexivity.
  - destruct room as [|r]; [reflexivity|].
    rewrite (IH body ltac:(unfold ltof; simpl; lia) r Hok); simpl.
    destruct (length (unescape body) <=? r)%nat; reflexivity.
Qed.

(** After the leading FEND run, a stuffed header is read back exactly. *)
Lemma kiss_decode_frame k fends h body max :
  Status k = KISS_STATUS_RECEIVED -> Forall (eq KISS_FEND) fends ->
  valid_bytes k = fends ++ stuff_byte h ++ body ->
  kiss_decode k max = kiss_decode_body k h body max.
Proof.
  intros St HF V. unfold kiss_decode. rewrite St, status_eqb_refl. cbn [negb]. rewrite V.
  unfold stuff_byte. destruct (h =? KISS_FEND) eqn:E1; [|destruct (h =? KISS_FESC) eqn:E2];
    simpl app; rewrite skip_fend_frame by (try apply Z.eqb_neq; easy).
  - apply Z.eqb_eq in E1; subst h; reflexivity.
  - apply Z.eqb_eq in E2; subst h; reflexivity.
  - rewrite (Z.eqb_sym KISS_FESC), (Z.eqb_sym KISS_FEND), E1, E2. reflexivity.
Qed.

Lemma kiss_decode_status k max :
  let r := kiss_decode k max in
  (Status k <> KISS_STATUS_RECEIVED ->
     dec_rc r = KISS_ERR_STATUS /\ dec_kiss r = k /\ dec_out r = []) /\
  (Status k = KISS_STATUS_RECEIVED ->
     (dec_rc r = KISS_OK \/ dec_rc r = KISS_ERR_INVALID_FRAME \/
      dec_rc r = KISS_ERR_BUFFER_OVERFLOW) /\
     (dec_rc r = KISS_OK -> Status (dec_kiss r) = KISS_STATUS_RECEIVED) /\
     (dec_rc r = KISS_ERR_INVALID_FRAME -> Status (dec_kiss r) = KISS_STATUS_ERROR_STATE)).
Proof.
  assert (Body : forall v src,
    let r := kiss_decode_body k v src max in
    (dec_rc r = KISS_OK \/ dec_rc r = KISS_ERR_INVALID_FRAME \/
     dec_rc r = KISS_ERR_BUFFER_OVERFLOW) /\
    (dec_rc r = KISS_OK -> dec_kiss r = k) /\
    (dec_rc r = KISS_ERR_INVALID_FRAME -> Status (dec_kiss r) = KISS_STATUS_ERROR_STATE)).
  { intros v src. unfold kiss_decode_body.
    pose proof (decode_loop_rc src max) as R. destruct (decode_loop src max) as [rc w].
    destruct R as [-> | [-> | ->]]; simpl; repeat split; auto; discriminate. }
  cbv zeta. unfold kiss_decode. split.
  - intro H. destruct (status_eqb (Status k) KISS_STATUS_RECEIVED) eqn:E.
    + apply status_eqb_true in E; contradiction.
    + simpl; auto.
  - intro H. rewrite H, status_eqb_refl. cbn [negb].
    destruct (skip_fend (valid_bytes k)) as [|val src].
    { simpl; repeat split; auto; discriminate. }
    destruct (KISS_FESC =? val).
    + destruct src as [|v2 src2]. { simpl; repeat split; auto; discriminate. }
      destruct (KISS_TFEND =? v2); [|destruct (KISS_TFESC =? v2)].
      * destruct (Body KISS_FEND src2) as (B1 & B2 & B3); repeat split; auto.
        intro E; rewrite (B2 E); exact H.
      * destruct (Body KISS_FESC src2) as (B1 & B2 & B3); repeat split; auto.
        intro E; rewrite (B2 E); exact H.
      * simpl; repeat split; auto; discriminate.
    + destruct (KISS_FEND =? val). { simpl; repeat split; auto; discriminate. }
      destruct (Body val src) as (B1 & B2 & B3); repeat split; auto.
      intro E; rewrite (B2 E); exact H.
Qed.

(** ** kiss_extract_param *)

Lemma skipn_nth_cons (l : list Z) i :
  (i < length l)%nat -> skipn i l = nth i l 0 :: skipn (S i) l.
Proof.
  revert i; induction l as [|x l IH]; intros [|i] H; simpl in *; try lia; auto.
  apply IH; lia.
Qed.

Lemma copy_param_spec out i room :
  copy_param out i (length out) room = firstn room (skipn i out).
Proof.
  revert i; induction room as [|r IH]; intro i; simpl; [reflexivity|].
  destruct (i <? length out)%nat eqn:C.
  - apply Nat.ltb_lt in C. rewrite (skipn_nth_cons out i C), IH; reflexivity.
  - apply Nat.ltb_ge in C. rewrite skipn_all2 by lia. reflexivity.
Qed.

Lemma kiss_decode_body_ok k v src max w :
  decode_loop src max = (KISS_OK, w) ->
  kiss_decode_body k v src max = mk_dec KISS_OK k w (Some (length w)) (Some v).
Proof. intro H; unfold kiss_decode_body; rewrite H; reflexivity. Qed.

Lemma kiss_decode_body_overflow k v src max w :
  decode_loop src max = (KISS_ERR_BUFFER_OVERFLOW, w) ->
  kiss_decode_body k v src max = mk_dec KISS_ERR_BUFFER_OVERFLOW k w None (Some v).
Proof. intro H; unfold kiss_decode_body; rewrite H; reflexivity. Qed.

(** ** CRC32 *)

Lemma crc32_loop_app crc a b : crc32_loop crc (a ++ b) = crc32_loop (crc32_loop crc a) b.
Proof. unfold crc32_loop; apply fold_left_app. Qed.

Lemma kiss_crc32_push_nonzero prev data :
  prev <> 0 -> kiss_crc32_push prev data = crc32_loop prev data.
Proof. intro H; unfold kiss_crc32_push; apply Z.eqb_neq in H; rewrite H; reflexivity. Qed.

Lemma kiss_crc32_push_zero data : kiss_crc32_push 0 data = crc32_loop MASK32 data.
Proof. reflexivity. Qed.

(** [kiss_encode_crc32] never reports success: it resets the status to
    [Nothing] before calling [kiss_push_encode], which requires
    [Transmitting]. *)
Lemma kiss_encode_crc32_rc k data header :
  fst (kiss_encode_crc32 k data header) <> KISS_OK.
Proof.
  unfold kiss_encode_crc32. destruct data as [|d data]; [discriminate|].
  destruct (kiss_encode k (d :: data) header) as [err k1].
  destruct (negb (err =? KISS_OK)) eqn:E.
  - simpl. intro H; subst err; discriminate.
  - simpl. discriminate.
Qed.

(** [kiss_decode_crc32] never reports success nor a CRC mismatch: it resets
    the status to [Nothing] before calling [kiss_decode], which requires
    [Received]. *)
Lemma kiss_decode_crc32_rc k max :
  let r := kiss_decode_crc32 k max in
  (dec_rc r = KISS_ERR_NO_DATA_RECEIVED \/ dec_rc r = KISS_ERR_INVALID_FRAME \/
   dec_rc r = KISS_ERR_STATUS) /\
  (Status k = KISS_STATUS_RECEIVED -> (4 <= index k)%nat ->
   dec_rc r = KISS_ERR_STATUS /\ Status (dec_kiss r) = KISS_STATUS_ERROR_STATE).
Proof.
  cbv zeta. unfold kiss_decode_crc32.
  destruct (status_eqb (Status k) KISS_STATUS_RECEIVED) eqn:S.
  - apply status_eqb_true in S. cbn [negb].
    destruct (index k <? 4)%nat eqn:I.
    + simpl; split; auto. intros _ H; apply Nat.ltb_lt in I; lia.
    + simpl; split; auto.
  - simpl; split; auto. intro H; rewrite H in S; discriminate.
Qed.

(** ** kiss_receive_frame *)

Lemma store_Status k i v : Status (store k i v) = Status k.
Proof. unfold store; destruct (_ <? _)%nat; reflexivity. Qed.

Lemma store_block_Status k at_ data : Status (store_block k at_ data) = Status k.
Proof.
  revert k at_; induction data as [|b data IH]; intros k at_; simpl; auto.
  rewrite IH; apply store_Status.
Qed.

Lemma rx_scan_status k i n fs ni :
  let '(r, k', _, _) := rx_scan k i n fs ni in
  match r with
  | None => Status k' = Status k
  | Some rc => rc = KISS_OK /\ Status k' = KISS_STATUS_RECEIVED \/
               rc = KISS_ERR_INVALID_FRAME /\ Status k' = KISS_STATUS_ERROR_STATE
  end.
Proof.
  revert k i fs ni; induction n as [|n IH]; intros k i fs ni; cbn [rx_scan]; [reflexivity|].
  destruct (negb fs).
  - destruct (KISS_FEND =? load k i).
    + specialize (IH (store k ni (load k i)) (S i) true (S ni)).
      destruct (rx_scan _ _ _ _ _) as [[[[|] ?] ?] ?]; rewrite ?store_Status in IH; exact IH.
    + specialize (IH k (S i) fs ni).
      destruct (rx_scan _ _ _ _ _) as [[[[|] ?] ?] ?]; exact IH.
  - destruct ((0 <? i)%nat && (KISS_FEND =? load k i) && (ni <=? 1)%nat).
    + specialize (IH k (S i) fs ni).
      destruct (rx_scan _ _ _ _ _) as [[[[|] ?] ?] ?]; exact IH.
    + destruct (KISS_FEND =? load (store k ni (load k i)) i).
      * destruct (S ni <? 3)%nat; simpl; auto.
      * specialize (IH (store k ni (load k i)) (S i) fs (S ni)).
        destruct (rx_scan _ _ _ _ _) as [[[[|] ?] ?] ?]; rewrite ?store_Status in IH; exact IH.
Qed.

Lemma rx_attempts_spec RS read_cb fuel k rs fs ni calls :
  Status k = KISS_STATUS_RECEIVING ->
  let '(rc, k', _, calls') := rx_attempts RS read_cb fuel k rs fs ni calls in
  (calls' <= calls + fuel)%nat /\
  (Status k' = KISS_STATUS_RECEIVING ->
     rc = KISS_ERR_NO_DATA_RECEIVED /\ calls' = (calls + fuel)%nat) /\
  (Status k' = KISS_STATUS_RECEIVING \/ Status k' = KISS_STATUS_RECEIVED \/
   Status k' = KISS_STATUS_ERROR_STATE) /\
  (Status k' = KISS_STATUS_RECEIVED -> rc = KISS_OK).
Proof.
  revert k rs fs ni calls; induction fuel as [|fuel IH]; intros k rs fs ni calls H; simpl.
  { rewrite Nat.add_0_r, H; repeat split; auto; discriminate. }
  destruct (read_cb rs (buffer_size k)) as [rs1 [err data]].
  set (k1 := set_index (store_block k ni data) (index (store_block k ni data) + length data)).
  assert (S1 : Status k1 = KISS_STATUS_RECEIVING)
    by (subst k1; unfold set_index; simpl; rewrite store_block_Status; exact H).
  destruct (negb (err =? KISS_OK)).
  { simpl; repeat split; try lia; auto; discriminate. }
  pose proof (rx_scan_status k1 ni (index (store_block k ni data) + length data - ni) fs ni) as SC.
  destruct (rx_scan k1 ni (index (store_block k ni data) + length data - ni) fs ni) as [[[[rc|] k2] fs2] ni2].
  - cbv iota beta. destruct SC as [[-> S2]|[-> S2]]; rewrite S2; repeat split; auto; try lia; discriminate.
  - rewrite S1 in SC. specialize (IH k2 rs1 fs2 ni2 (S calls) SC).
    destruct (rx_attempts RS read_cb fuel k2 rs1 fs2 ni2 (S calls)) as [[[rc3 k3] rs3] c3].
    destruct IH as (I1 & I2 & I3 & I4). split; [lia|]. split; [|split; auto].
    intro E; destruct (I2 E); split; [auto|lia].
Qed.

(** Without CRC32, a frame built by [kiss_encode] decodes back to its
    payload and header. *)
Lemma kiss_encode_decode_roundtrip k P H max :
  length (buffer k) = buffer_size k ->
  (frame_length H P <= buffer_size k)%nat -> (length P <= max)%nat ->
  let '(rc, k1) := kiss_encode k P H in
  let r := kiss_decode (set_status k1 KISS_STATUS_RECEIVED) max in
  rc = KISS_OK /\ dec_rc r = KISS_OK /\ dec_out r = P /\ dec_hdr r = Some H.
Proof.
  intros L F M. pose proof (kiss_encode_spec k P H) as E.
  destruct (kiss_encode k P H) as [rc k1].
  destruct E as (_ & _ & _ & [(_ & -> & _ & _ & V)|(C & _)]); [|lia].
  specialize (V L).
  rewrite (kiss_decode_frame _ [KISS_FEND] H (stuff P ++ [KISS_FEND]) max); auto.
  unfold kiss_decode_body. rewrite decode_loop_stuff_ok by exact M. simpl; auto.
Qed.

(** * The claims *)

(** C1 (code_bug). The CRC32 round trip never succeeds:
    [kiss_encode_crc32] never returns [KISS_OK] (it sets the status to
    Nothing and then calls [kiss_push_encode], which requires
    Transmitting) and [kiss_decode_crc32] never returns [KISS_OK] (it sets
    the status to Nothing and then calls [kiss_decode], which requires
    Received).  On the payload [41] with header 0 in a 16-byte buffer,
    encoding returns InvalidParams and decoding the result with the status
    set to Received returns Status. *)
Theorem C1_crc32_roundtrip_fails :
  (forall k data header, fst (kiss_encode_crc32 k data header) <> KISS_OK) /\
  (forall k max, dec_rc (kiss_decode_crc32 k max) <> KISS_OK) /\
  (let '(rc1, k1) := kiss_encode_crc32 (blank_instance 16) [0x41] 0 in
   rc1 = KISS_ERR_INVALID_PARAMS /\
   dec_rc (kiss_decode_crc32 (set_status k1 KISS_STATUS_RECEIVED) 16) = KISS_ERR_STATUS).
Proof.
  split; [exact kiss_encode_crc32_rc|]. split.
  - intros k max. destruct (kiss_decode_crc32_rc k max) as [[E|[E|E]] _];
      rewrite E; discriminate.
  - vm_compute. split; reflexivity.
Qed.

(** C2 (code_bug). [index <= buffer_size] is not kept by
    [kiss_receive_frame]: after [kiss_init] with a 4-byte buffer, a read
    callback that stores one noise byte, then four noise bytes (never more
    than the [max_length] it is given, all inside the buffer), leaves
    [index = 5 > buffer_size = 4] after two attempts, because the code adds
    each read count to [index] while storing every read at [new_index]. *)
Theorem C2_receive_frame_index_exceeds_buffer_size :
  kiss_init (Some (repeat 0 4)) 4 0 true true 0 = (KISS_OK, Some (blank_instance 4)) /\
  (forall calls max_length,
     (length (snd (snd (noise_reader calls max_length))) <= max_length)%nat) /\
  (let '(rc, k', _, calls) := kiss_receive_frame nat noise_reader (blank_instance 4) 0%nat 2 in
   rc = KISS_ERR_NO_DATA_RECEIVED /\ calls = 2%nat /\ index k' = 5%nat /\
   buffer_size k' = 4%nat /\ oob_write k' = false).
Proof.
  split; [reflexivity|]. split.
  - intros calls max_length; unfold noise_reader; simpl. apply firstn_le_length.
  - vm_compute. repeat split; reflexivity.
Qed.

(** C3 (code_bug). A CRC mismatch is never reported: [kiss_decode_crc32]
    never returns Crc32Mismatch.  On the frame [C0 00 43 42 07 4C 69 30 C0]
    (payload 43 42 followed by the CRC32 of 41 42, little-endian), received
    and in status Received, it returns Status and leaves ErrorState. *)
Theorem C3_crc32_mismatch_not_reported :
  (forall k max, dec_rc (kiss_decode_crc32 k max) <> KISS_ERR_CRC32_MISMATCH) /\
  kiss_crc32 [0x41; 0x42] = 0x30694C07 /\ kiss_crc32 [0x43; 0x42] <> 0x30694C07 /\
  (let r := kiss_decode_crc32
              (received_instance [0xC0; 0x00; 0x43; 0x42; 0x07; 0x4C; 0x69; 0x30; 0xC0] 16) 16 in
   dec_rc r = KISS_ERR_STATUS /\ Status (dec_kiss r) = KISS_STATUS_ERROR_STATE).
Proof.
  split.
  - intros k max. destruct (kiss_decode_crc32_rc k max) as [[E|[E|E]] _];
      rewrite E; discriminate.
  - vm_compute. repeat split; try reflexivity; discriminate.
Qed.

(** C4 (corrected), counterexample.  With A = [01], B = [02], header 0 and
    a 16-byte buffer, [kiss_encode_crc32] on A followed by
    [kiss_push_encode] of B leaves a buffer different from
    [kiss_encode_crc32] on A ++ B. *)
Lemma C4_counterexample :
  let '(_, k1) := kiss_encode_crc32 (blank_instance 16) [1] 0 in
  let '(_, k2) := kiss_push_encode k1 [2] in
  let '(_, k3) := kiss_encode_crc32 (blank_instance 16) [1; 2] 0 in
  buffer k2 <> buffer k3.
Proof. vm_compute. discriminate. Qed.

(** C4 (corrected), amended.  [kiss_push_encode] neither rewinds nor
    recomputes a CRC32: it drops the trailing FEND, stuffs the new bytes
    with the capacity checks of [kiss_encode] and rewrites FEND.  So for a
    frame built by plain [kiss_encode] (instance buffer of [buffer_size]
    bytes, encoding of A successful, B non-empty), pushing B gives the
    result code, index, status and out-of-bounds record of encoding A ++ B
    with the same header, and the very same instance when that succeeds. *)
Theorem C4_push_encode_matches_encode k A B header :
  length (buffer k) = buffer_size k -> B <> [] ->
  fst (kiss_encode k A header) = KISS_OK ->
  let '(rc2, k2) := kiss_push_encode (snd (kiss_encode k A header)) B in
  let '(rc3, k3) := kiss_encode k (A ++ B) header in
  rc2 = rc3 /\ index k2 = index k3 /\ Status k2 = Status k3 /\
  oob_write k2 = oob_write k3 /\ (rc3 = KISS_OK -> k2 = k3).
Proof. apply push_encode_after_encode. Qed.

Lemma C4_push_encode_matches_encode_witness :
  length (buffer (blank_instance 16)) = buffer_size (blank_instance 16) /\
  (let '(rc2, k2) := kiss_push_encode (snd (kiss_encode (blank_instance 16) [2; 0] 0x50)) [5] in
   let '(rc3, k3) := kiss_encode (blank_instance 16) ([2; 0] ++ [5]) 0x50 in
   rc2 = rc3 /\ index k2 = index k3 /\ Status k2 = Status k3 /\
   oob_write k2 = oob_write k3 /\ (rc3 = KISS_OK -> k2 = k3)).
Proof.
  split; [reflexivity|].
  apply (C4_push_encode_matches_encode (blank_instance 16) [2; 0] [5] 0x50);
    [reflexivity | discriminate | reflexivity].
Defined.

(** C5 (corrected), counterexample.  A received buffer holding only
    [C0 C0] makes [kiss_decode] fail with InvalidFrame and leave the status
    ErrorState, not ReceivedError. *)
Lemma C5_counterexample :
  let r := kiss_decode (received_instance [0xC0; 0xC0] 8) 8 in
  dec_rc r = KISS_ERR_INVALID_FRAME /\
  Status (dec_kiss r) = KISS_STATUS_ERROR_STATE /\
  Status (dec_kiss r) <> KISS_STATUS_RECEIVED_ERROR.
Proof. vm_compute. repeat split; try reflexivity; discriminate. Qed.

(** C5 (corrected), amended.  [kiss_decode] is gated on Received: in any
    other status it returns Status and leaves the instance unchanged,
    writing no output.  Called in Received it returns OK, InvalidFrame or
    BufferOverflow; on OK the status stays Received, on InvalidFrame (no
    byte after the FEND run, truncated or illegal escape) it becomes
    ErrorState. *)
Theorem C5_decode_status_gate k max :
  let r := kiss_decode k max in
  (Status k <> KISS_STATUS_RECEIVED ->
     dec_rc r = KISS_ERR_STATUS /\ dec_kiss r = k /\ dec_out r = []) /\
  (Status k = KISS_STATUS_RECEIVED ->
     (dec_rc r = KISS_OK \/ dec_rc r = KISS_ERR_INVALID_FRAME \/
      dec_rc r = KISS_ERR_BUFFER_OVERFLOW) /\
     (dec_rc r = KISS_OK -> Status (dec_kiss r) = KISS_STATUS_RECEIVED) /\
     (dec_rc r = KISS_ERR_INVALID_FRAME -> Status (dec_kiss r) = KISS_STATUS_ERROR_STATE)).
Proof. apply kiss_decode_status. Qed.

(** C6 (corrected), counterexample.  A 4-byte buffer is smaller than
    3 + 2 * 1, yet [kiss_encode] of the payload [41] with header 0
    succeeds. *)
Lemma C6_counterexample :
  (buffer_size (blank_instance 4) < 3 + 2 * length [0x41])%nat /\
  fst (kiss_encode (blank_instance 4) [0x41] 0) = KISS_OK.
Proof. split; [simpl; lia | reflexivity]. Qed.

(** C6 (corrected), amended.  [kiss_encode] returns BufferOverflow exactly
    when the stuffed frame (FEND, stuffed header, stuffed payload, FEND) is
    longer than [buffer_size], returns OK otherwise, and never stores at an
    index at or beyond [buffer_size]. *)
Theorem C6_encode_overflow_iff_frame_too_long k data header :
  let '(rc, k') := kiss_encode k data header in
  (rc = KISS_ERR_BUFFER_OVERFLOW <-> (buffer_size k < frame_length header data)%nat) /\
  (rc = KISS_OK <-> (frame_length header data <= buffer_size k)%nat) /\
  oob_write k' = oob_write k.
Proof.
  pose proof (kiss_encode_spec k data header) as E.
  destruct (kiss_encode k data header) as [rc k'].
  destruct E as (E1 & _ & _ & [(C & -> & _)|(C & -> & _)]);
    repeat split; auto; intro H; try lia; discriminate.
Qed.

(** C7 (corrected), counterexample.  For A = [FF FF FF FF] the running
    value [kiss_crc32_push 0 A] is 0, so the next call re-seeds to
    0xFFFFFFFF instead of continuing: with B = [] the complemented result
    is 0, while [kiss_crc32 A] is 0xFFFFFFFF. *)
Lemma C7_counterexample :
  kiss_crc32_push 0 [0xFF; 0xFF; 0xFF; 0xFF] = 0 /\
  u32_not (kiss_crc32_push (kiss_crc32_push 0 [0xFF; 0xFF; 0xFF; 0xFF]) []) = 0 /\
  kiss_crc32 ([0xFF; 0xFF; 0xFF; 0xFF] ++ []) = 0xFFFFFFFF.
Proof. vm_compute. repeat split. Qed.

(** C7 (corrected), amended.  Chaining composes with the one-shot CRC
    whenever the intermediate value [kiss_crc32_push 0 A] is not 0 (a
    running value of 0 is taken for a first call and re-seeded):
    complementing [kiss_crc32_push (kiss_crc32_push 0 A) B] gives
    [kiss_crc32 (A ++ B)]. *)
Theorem C7_crc32_push_composes A B :
  kiss_crc32_push 0 A <> 0 ->
  u32_not (kiss_crc32_push (kiss_crc32_push 0 A) B) = kiss_crc32 (A ++ B).
Proof.
  intro H. rewrite (kiss_crc32_push_nonzero _ B H), kiss_crc32_push_zero.
  unfold kiss_crc32. rewrite crc32_loop_app. reflexivity.
Qed.

Lemma C7_crc32_push_composes_witness :
  kiss_crc32_push 0 [0x41] <> 0 /\
  u32_not (kiss_crc32_push (kiss_crc32_push 0 [0x41]) [0x42]) = kiss_crc32 ([0x41] ++ [0x42]).
Proof.
  split; [vm_compute; discriminate|].
  apply C7_crc32_push_composes. vm_compute. discriminate.
Defined.

(** C8.  With a [read] callback installed and [maxAttempts > 0],
    [kiss_receive_frame] invokes the callback at most [maxAttempts] times;
    when it ends with no frame assembled (status still Receiving) it returns
    NoDataReceived after exactly [maxAttempts] invocations; otherwise the
    status is Received (and the result OK) or ErrorState. *)
Theorem C8_receive_frame_attempt_budget RS read_cb k rs maxAttempts :
  (0 < maxAttempts)%nat -> read_set k = true ->
  let '(rc, k', _, calls) := kiss_receive_frame RS read_cb k rs maxAttempts in
  (calls <= maxAttempts)%nat /\
  (Status k' = KISS_STATUS_RECEIVING ->
     rc = KISS_ERR_NO_DATA_RECEIVED /\ calls = maxAttempts) /\
  (Status k' = KISS_STATUS_RECEIVING \/ Status k' = KISS_STATUS_RECEIVED \/
   Status k' = KISS_STATUS_ERROR_STATE) /\
  (Status k' = KISS_STATUS_RECEIVED -> rc = KISS_OK).
Proof.
  intros Hm Hr. unfold kiss_receive_frame. rewrite Hr. cbn [negb].
  destruct (maxAttempts =? 0)%nat eqn:E; [apply Nat.eqb_eq in E; lia|].
  apply (rx_attempts_spec RS read_cb maxAttempts _ rs false 0 0). reflexivity.
Qed.

Lemma C8_receive_frame_attempt_budget_witness :
  (0 < 2)%nat /\ read_set (blank_instance 4) = true /\
  (let '(rc, k', _, calls) := kiss_receive_frame nat noise_reader (blank_instance 4) 0%nat 2 in
   (calls <= 2)%nat /\
   (Status k' = KISS_STATUS_RECEIVING ->
      rc = KISS_ERR_NO_DATA_RECEIVED /\ calls = 2%nat) /\
   (Status k' = KISS_STATUS_RECEIVING \/ Status k' = KISS_STATUS_RECEIVED \/
    Status k' = KISS_STATUS_ERROR_STATE) /\
   (Status k' = KISS_STATUS_RECEIVED -> rc = KISS_OK)).
Proof.
  split; [lia|]. split; [reflexivity|].
  apply (C8_receive_frame_attempt_budget nat noise_reader (blank_instance 4) 0%nat 2);
    [lia | reflexivity].
Defined.

(** C9.  In status Received, when the valid bytes are a FEND run, a
    (stuffed) header and a body with no FEND and no illegal or truncated
    escape, so that no closing FEND is present, [kiss_decode] never reports
    InvalidFrame; when the unstuffed body fits in the output buffer it
    returns OK with the unstuffed body as payload, the header, and status
    Received. *)
Theorem C9_decode_unterminated_frame k fends h body max :
  Status k = KISS_STATUS_RECEIVED -> Forall (eq KISS_FEND) fends ->
  valid_bytes k = fends ++ stuff_byte h ++ body -> escapes_ok body = true ->
  let r := kiss_decode k max in
  dec_rc r <> KISS_ERR_INVALID_FRAME /\
  ((length (unescape body) <= max)%nat ->
     dec_rc r = KISS_OK /\ dec_out r = unescape body /\
     dec_len r = Some (length (unescape body)) /\ dec_hdr r = Some h /\
     Status (dec_kiss r) = KISS_STATUS_RECEIVED).
Proof.
  intros St HF V Hok. cbv zeta. rewrite (kiss_decode_frame k fends h body max St HF V).
  unfold kiss_decode_body. rewrite (decode_loop_escaped body max Hok).
  destruct (length (unescape body) <=? max)%nat eqn:C.
  - simpl. split; [discriminate|]. intros _. repeat split; auto.
  - simpl. split; [discriminate|]. intro L. apply Nat.leb_gt in C. lia.
Qed.

Lemma C9_decode_unterminated_frame_witness :
  let k := received_instance [0xC0; 0x10; 0x41; 0xDB; 0xDC] 8 in
  Status k = KISS_STATUS_RECEIVED /\ Forall (eq KISS_FEND) [0xC0] /\
  valid_bytes k = [0xC0] ++ stuff_byte 0x10 ++ [0x41; 0xDB; 0xDC] /\
  escapes_ok [0x41; 0xDB; 0xDC] = true /\
  (let r := kiss_decode k 8 in
   dec_rc r <> KISS_ERR_INVALID_FRAME /\
   ((length (unescape [0x41; 0xDB; 0xDC]%Z) <= 8)%nat ->
      dec_rc r = KISS_OK /\ dec_out r = unescape [0x41; 0xDB; 0xDC] /\
      dec_len r = Some (length (unescape [0x41; 0xDB; 0xDC])) /\ dec_hdr r = Some 0x10 /\
      Status (dec_kiss r) = KISS_STATUS_RECEIVED)).
Proof.
  cbv zeta. split; [reflexivity|]. split; [repeat constructor|].
  split; [reflexivity|]. split; [reflexivity|].
  apply (C9_decode_unterminated_frame (received_instance [0xC0; 0x10; 0x41; 0xDB; 0xDC] 8)
           [0xC0] 0x10 [0x41; 0xDB; 0xDC] 8);
    [reflexivity | repeat constructor | reflexivity | reflexivity].
Defined.

(** C10.  [kiss_extract_param] decodes into a 256-byte scratch buffer: for
    a received frame [FEND run, stuffed header, stuffed payload P, FEND,
    ...] it returns BufferOverflow whenever P is longer than 256 bytes,
    whatever [max_param_size]; when P fits, the header is SetParam or
    RequestParam and P holds at least the two identifier bytes, it returns
    OK with the little-endian identifier, and the value bytes handed back
    are those of P after the identifier truncated to [max_param_size]. *)
Theorem C10_extract_param_scratch_buffer k fends h P rest max :
  Status k = KISS_STATUS_RECEIVED -> Forall (eq KISS_FEND) fends ->
  valid_bytes k = fends ++ stuff_byte h ++ stuff P ++ KISS_FEND :: rest ->
  let '(rc, _, id, prm) := kiss_extract_param k max in
  ((256 < length P)%nat -> rc = KISS_ERR_BUFFER_OVERFLOW) /\
  ((length P <= 256)%nat ->
     (h = KISS_HEADER_SET_PARAM \/ h = KISS_HEADER_REQUEST_PARAM) -> (2 <= length P)%nat ->
     rc = KISS_OK /\ id = Some (le16 P) /\
     ((0 < max)%nat -> prm = Some (firstn max (skipn 2 P)))).
Proof.
  intros St HF V. unfold kiss_extract_param. rewrite St, status_eqb_refl. cbn [negb].
  rewrite (kiss_decode_frame k fends h _ 256 St HF V).
  destruct (Nat.lt_ge_cases 256 (length P)) as [L|L].
  - rewrite (kiss_decode_body_overflow k h _ 256 _
               (decode_loop_stuff_overflow P (KISS_FEND :: rest) 256 L)).
    cbn [dec_rc]. replace (KISS_ERR_BUFFER_OVERFLOW =? KISS_OK) with false by reflexivity.
    cbn [negb]. split; [reflexivity|]. intro; lia.
  - rewrite (kiss_decode_body_ok k h _ 256 _ (decode_loop_stuff_ok P rest 256 L)).
    cbn [dec_rc dec_kiss dec_out dec_len dec_hdr]. rewrite Z.eqb_refl. cbn [negb].
    destruct ((negb (h =? KISS_HEADER_SET_PARAM) && negb (h =? KISS_HEADER_REQUEST_PARAM))
              || (length P <? 2)%nat) eqn:E.
    + split; [intro; lia|]. intros _ Hh Hl. exfalso.
      apply orb_true_iff in E as [E|E].
      * destruct Hh as [-> | ->]; discriminate E.
      * apply Nat.ltb_lt in E; lia.
    + destruct (0 <? max)%nat eqn:M.
      * split; [intro; lia|]. intros _ _ _. repeat split. intros _.
        rewrite copy_param_spec. reflexivity.
      * split; [intro; lia|]. intros _ _ _. repeat split.
        apply Nat.ltb_ge in M. intro; lia.
Qed.

Lemma C10_extract_param_scratch_buffer_witness :
  let k := received_instance [0xC0; 0x50; 0x02; 0x00; 0x05; 0xC0] 8 in
  Status k = KISS_STATUS_RECEIVED /\ Forall (eq KISS_FEND) [0xC0] /\
  valid_bytes k = [0xC0] ++ stuff_byte 0x50 ++ stuff [0x02; 0x00; 0x05] ++ KISS_FEND :: [] /\
  (let '(rc, _, id, prm) := kiss_extract_param k 1 in
   ((256 < length [0x02; 0x00; 0x05]%Z)%nat -> rc = KISS_ERR_BUFFER_OVERFLOW) /\
   ((length [0x02; 0x00; 0x05]%Z <= 256)%nat ->
      (0x50 = KISS_HEADER_SET_PARAM \/ 0x50 = KISS_HEADER_REQUEST_PARAM) ->
      (2 <= length [0x02; 0x00; 0x05]%Z)%nat ->
      rc = KISS_OK /\ id = Some (le16 [0x02; 0x00; 0x05]) /\
      ((0 < 1)%nat -> prm = Some (firstn 1 (skipn 2 [0x02; 0x00; 0x05]))))).
Proof.
  cbv zeta. split; [reflexivity|]. split; [repeat constructor|]. split; [reflexivity|].
  apply (C10_extract_param_scratch_buffer
           (received_instance [0xC0; 0x50; 0x02; 0x00; 0x05; 0xC0] 8)
           [0xC0] 0x50 [0x02; 0x00; 0x05] [] 1);
    [reflexivity | repeat constructor | reflexivity].
Defined.

(** ** Further properties of the library *)

(** *** The CRC table is the reflected CRC-32 table *)

Lemma crc32_bit_step_lxor a b :
  crc32_bit_step (Z.lxor a b) = Z.lxor (crc32_bit_step a) (crc32_bit_step b).
Proof.
  unfold crc32_bit_step.
  assert (O : Z.odd (Z.lxor a b) = xorb (Z.odd a) (Z.odd b)).
  { rewrite <- !Z.bit0_odd. apply Z.lxor_spec. }
  rewrite O, Z.shiftr_lxor.
  destruct (Z.odd a), (Z.odd b); cbn [xorb];
    apply Z.bits_inj'; intros n _; rewrite ?Z.lxor_spec;
    destruct (Z.testbit (Z.shiftr a 1) n), (Z.testbit (Z.shiftr b 1) n),
      (Z.testbit 0xEDB88320 n); reflexivity.
Qed.

Lemma crc32_bits_lxor n a b :
  crc32_bits n (Z.lxor a b) = Z.lxor (crc32_bits n a) (crc32_bits n b).
Proof.
  revert a b; induction n as [|n IH]; intros a b; simpl; [reflexivity|].
  rewrite crc32_bit_step_lxor. apply IH.
Qed.

Lemma crc32_bits_shiftl n y : crc32_bits n (Z.shiftl y (Z.of_nat n)) = y.
Proof.
  revert y; induction n as [|n IH]; intro y; cbn [crc32_bits].
  - reflexivity.
  - unfold crc32_bit_step.
    assert (E : Z.odd (Z.shiftl y (Z.of_nat (S n))) = false).
    { rewrite <- Z.bit0_odd. apply Z.shiftl_spec_low. lia. }
    rewrite E, Z.shiftr_shiftl_l by lia.
    replace (Z.of_nat (S n) - 1) with (Z.of_nat n) by lia. apply IH.
Qed.

Lemma kiss_CRC32_Table_bits :
  forallb (fun i => (nth i kiss_CRC32_Table 0 =? crc32_bits 8 (Z.of_nat i))
                    && (0 <=? nth i kiss_CRC32_Table 0))
          (seq 0 256) = true.
Proof. vm_compute. reflexivity. Qed.

Lemma kiss_CRC32_Table_entry i :
  (i < 256)%nat ->
  nth i kiss_CRC32_Table 0 = crc32_bits 8 (Z.of_nat i) /\ 0 <= nth i kiss_CRC32_Table 0.
Proof.
  intro H. pose proof kiss_CRC32_Table_bits as T. rewrite forallb_forall in T.
  specialize (T i (proj2 (in_seq 256 0 i) (conj (Nat.le_0_l i) H))).
  apply andb_true_iff in T as [T1 T2]. apply Z.eqb_eq in T1. apply Z.leb_le in T2.
  split; assumption.
Qed.

Lemma split_low_byte c :
  0 <= c -> c = Z.lxor (Z.land c 0xFF) (Z.shiftl (Z.shiftr c 8) 8).
Proof.
  intro Hc. apply Z.bits_inj'. intros n Hn.
  rewrite Z.lxor_spec, Z.land_spec.
  destruct (Z.lt_ge_cases n 8) as [L|L].
  - rewrite Z.shiftl_spec_low by lia.
    assert (B : Z.testbit 0xFF n = true).
    { assert (n = 0 \/ n = 1 \/ n = 2 \/ n = 3 \/ n = 4 \/ n = 5 \/ n = 6 \/ n = 7)
        as D by lia.
      destruct D as [->|[->|[->|[->|[->|[->|[->| ->]]]]]]]; reflexivity. }
    rewrite B, andb_true_r, xorb_false_r. reflexivity.
  - rewrite Z.shiftl_spec_high, Z.shiftr_spec by lia.
    replace (n - 8 + 8) with n by lia.
    rewrite (Z.bits_above_log2 0xFF n) by (simpl; lia).
    rewrite andb_false_r. reflexivity.
Qed.

Lemma crc32_step_bits crc b :
  0 <= crc -> 0 <= b < 256 ->
  crc32_step crc b = crc32_bits 8 (Z.lxor crc b) /\ 0 <= crc32_step crc b.
Proof.
  intros Hc Hb. set (c := Z.lxor crc b).
  assert (Hc' : 0 <= c) by (apply Z.lxor_nonneg; lia).
  assert (Hsh : Z.shiftr crc 8 = Z.shiftr c 8).
  { subst c. rewrite Z.shiftr_lxor.
    rewrite (Z.shiftr_div_pow2 b 8), Z.div_small by lia.
    rewrite Z.lxor_0_r. reflexivity. }
  assert (Hl : 0 <= Z.land c 0xFF < 256).
  { change 0xFF with (Z.ones 8). rewrite Z.land_ones by lia.
    apply Z.mod_pos_bound; lia. }
  pose proof (kiss_CRC32_Table_entry (Z.to_nat (Z.land c 0xFF)) ltac:(lia)) as [T1 T2].
  rewrite Z2Nat.id in T1 by lia.
  unfold crc32_step. fold c. rewrite T1, Hsh. split.
  - symmetry. rewrite (split_low_byte c Hc') at 1.
    pose proof (crc32_bits_shiftl 8 (Z.shiftr c 8)) as SH.
    change (Z.of_nat 8) with 8 in SH. rewrite crc32_bits_lxor, SH.
    apply Z.lxor_comm.
  - apply Z.lxor_nonneg. split; intros _; [rewrite <- T1; exact T2|].
    apply Z.shiftr_nonneg; lia.
Qed.

Lemma crc32_loop_bits crc data :
  0 <= crc -> Forall (fun b => 0 <= b < 256) data ->
  crc32_loop crc data = fold_left (fun c b => crc32_bits 8 (Z.lxor c b)) data crc.
Proof.
  unfold crc32_loop. intros Hc HF. revert crc Hc.
  induction HF as [|b data Hb HF IH]; intros crc Hc; cbn [fold_left]; [reflexivity|].
  destruct (crc32_step_bits crc b Hc Hb) as [E N]. rewrite <- E. apply IH, N.
Qed.

(** *** kiss_send_frame *)

Lemma kiss_send_frame_cases WS write_cb k ws :
  let '(rc, k', ws') := kiss_send_frame WS write_cb k ws in
  same_config k k' /\ buffer k' = buffer k /\ index k' = index k /\
  (write_set k = true -> Status k <> KISS_STATUS_TRANSMITTING ->
     rc = KISS_ERR_DATA_NOT_ENCODED) /\
  ((rc = KISS_OK /\ Status k' = KISS_STATUS_TRANSMITTED /\
      Status k = KISS_STATUS_TRANSMITTING) \/
   (rc <> KISS_OK /\ Status k' = KISS_STATUS_ERROR_STATE /\
      Status k = KISS_STATUS_TRANSMITTING /\ write_set k = true /\
      padding k <= KISS_MAX_PADDING) \/
   ((rc = KISS_ERR_CALLBACK_MISSING /\ write_set k = false \/
     rc = KISS_ERR_DATA_NOT_ENCODED /\ Status k <> KISS_STATUS_TRANSMITTING \/
     rc = KISS_ERR_PADDING_OVERFLOW /\ KISS_MAX_PADDING < padding k) /\
    k' = k /\ ws' = ws)).
Proof.
  unfold kiss_send_frame.
  destruct (write_set k) eqn:W; cbn [negb].
  2:{ repeat split; auto; try discriminate. right; right; split; [left|]; auto. }
  destruct (status_eqb (Status k) KISS_STATUS_TRANSMITTING) eqn:St; cbn [negb].
  2:{ assert (N : Status k <> KISS_STATUS_TRANSMITTING)
        by (intro E; rewrite E, status_eqb_refl in St; discriminate).
      repeat split; auto. right; right; split; [right; left|]; auto. }
  apply status_eqb_true in St.
  destruct (padding k >? KISS_MAX_PADDING) eqn:P.
  { apply Z.gtb_lt in P. repeat split; auto; try congruence.
    right; right; split; [right; right|]; auto. }
  rewrite Z.gtb_ltb in P; apply Z.ltb_ge in P.
  destruct (if padding k >? 0
            then write_cb ws (firstn (Z.to_nat (padding k)) kiss_padding_block)
            else (ws, KISS_OK)) as [ws1 e1].
  destruct (negb (e1 =? KISS_OK)) eqn:E1.
  { apply negb_true_iff, Z.eqb_neq in E1. repeat split; auto; try congruence.
    right; left; repeat split; auto. }
  destruct (write_cb ws1 (valid_bytes k)) as [ws2 e2].
  destruct (e2 =? KISS_OK) eqn:E2.
  - repeat split; auto; try congruence.
  - apply Z.eqb_neq in E2. repeat split; auto; try congruence.
    right; left; repeat split; auto.
Qed.

Lemma firstn_repeat_le {A} (x : A) n m : (n <= m)%nat -> firstn n (repeat x m) = repeat x n.
Proof.
  revert m; induction n as [|n IH]; intros [|m] H; simpl; try reflexivity; [lia|].
  rewrite IH by lia. reflexivity.
Qed.

Lemma kiss_send_frame_log k log :
  write_set k = true -> Status k = KISS_STATUS_TRANSMITTING ->
  0 <= padding k <= KISS_MAX_PADDING ->
  kiss_send_frame _ log_writer k log =
  (KISS_OK, set_status k KISS_STATUS_TRANSMITTED,
   log ++ padding_writes (padding k) ++ [valid_bytes k]).
Proof.
  intros W St P. unfold kiss_send_frame, padding_writes.
  rewrite W, St, status_eqb_refl. cbn [negb].
  replace (padding k >? KISS_MAX_PADDING) with false
    by (symmetry; rewrite Z.gtb_ltb; apply Z.ltb_ge; lia).
  rewrite Z.gtb_ltb. destruct (0 <? padding k) eqn:Q.
  - apply Z.ltb_lt in Q. unfold log_writer, kiss_padding_block.
    rewrite firstn_repeat_le by (unfold KISS_MAX_PADDING in P; lia).
    cbn. rewrite <- app_assoc. reflexivity.
  - cbn. reflexivity.
Qed.

Lemma same_config_refl k : same_config k k.
Proof. repeat split. Qed.

Lemma same_config_trans k1 k2 k3 :
  same_config k1 k2 -> same_config k2 k3 -> same_config k1 k3.
Proof. unfold same_config; intuition congruence. Qed.

Lemma same_config_put k v : same_config k (put k v).
Proof. unfold put, store, set_index; destruct (_ <? _)%nat; repeat split. Qed.

Lemma same_config_store k i v : same_config k (store k i v).
Proof. unfold store; destruct (_ <? _)%nat; repeat split. Qed.

Lemma same_config_set_status k s : same_config k (set_status k s).
Proof. repeat split. Qed.

Lemma same_config_set_index k i : same_config k (set_index k i).
Proof. repeat split. Qed.

Lemma same_config_stuff_loop k data : same_config k (snd (kiss_stuff_loop k data)).
Proof.
  revert k; induction data as [|b data IH]; intro k; cbn [kiss_stuff_loop];
    [apply same_config_refl|].
  destruct (b =? KISS_FEND); [|destruct (b =? KISS_FESC)];
    destruct (_ <? _)%nat; try apply same_config_set_status;
    (eapply same_config_trans; [|apply IH]);
    repeat (eapply same_config_trans; [|apply same_config_put]); apply same_config_refl.
Qed.

Lemma same_config_encode k data header : same_config k (snd (kiss_encode k data header)).
Proof.
  unfold kiss_encode. destruct (buffer_size k <? 3)%nat; [apply same_config_refl|].
  set (k1 := if KISS_FESC =? header then _ else _).
  assert (C1 : same_config k k1).
  { subst k1. destruct (KISS_FESC =? header); [|destruct (KISS_FEND =? header)];
      repeat (eapply same_config_trans; [|apply same_config_put]);
      apply same_config_set_index. }
  pose proof (same_config_stuff_loop k1 data) as C2.
  destruct (kiss_stuff_loop k1 data) as [rc k2]; simpl in C2.
  destruct (negb (rc =? KISS_OK)); [simpl; eapply same_config_trans; eauto|].
  destruct (_ <? _)%nat; simpl; (eapply same_config_trans; [eapply same_config_trans; eauto|]).
  - apply same_config_set_status.
  - eapply same_config_trans; [apply same_config_put|apply same_config_set_status].
Qed.

Lemma same_config_push_encode k data : same_config k (snd (kiss_push_encode k data)).
Proof.
  unfold kiss_push_encode. destruct data as [|d data]; [apply same_config_refl|].
  destruct (status_eqb _ _); [apply same_config_refl|].
  destruct (negb _); [apply same_config_refl|].
  destruct (index k =? 0)%nat; [apply same_config_refl|].
  destruct (negb _); [apply same_config_set_status|].
  pose proof (same_config_stuff_loop (set_index k (index k - 1)) (d :: data)) as C2.
  destruct (kiss_stuff_loop _ _) as [rc k2]; simpl in C2.
  assert (C1 := same_config_trans _ _ _ (same_config_set_index k (index k - 1)) C2).
  destruct (negb (rc =? KISS_OK)); [exact C1|].
  destruct (_ <? _)%nat; simpl; (eapply same_config_trans; [exact C1|]).
  - apply same_config_set_status.
  - apply same_config_put.
Qed.

Lemma kiss_encode_and_send_log k log data header :
  length (buffer k) = buffer_size k -> write_set k = true ->
  0 <= padding k <= KISS_MAX_PADDING ->
  let '(rc, k', log') := kiss_encode_and_send _ log_writer k log data header in
  same_config k k' /\
  ((frame_length header data <= buffer_size k)%nat ->
     rc = KISS_OK /\ Status k' = KISS_STATUS_TRANSMITTED /\
     valid_bytes k' = kiss_frame header data /\
     log' = log ++ padding_writes (padding k) ++ [kiss_frame header data]) /\
  ((buffer_size k < frame_length header data)%nat ->
     rc = KISS_ERR_BUFFER_OVERFLOW /\ log' = log).
Proof.
  intros L W P. unfold kiss_encode_and_send.
  pose proof (kiss_encode_spec k data header) as E.
  pose proof (same_config_encode k data header) as Cf.
  destruct (kiss_encode k data header) as [rc k1]. simpl in Cf.
  assert (Cf' := Cf). destruct Cf' as (_ & _ & W1 & _ & P1).
  destruct E as (_ & _ & _ & [(C & -> & _ & S1 & V)|(C & -> & _)]).
  - cbn [negb Z.eqb].
    rewrite kiss_send_frame_log by (rewrite ?W1, ?P1; auto).
    split; [eapply same_config_trans; [exact Cf|apply same_config_set_status]|].
    split; [|intro; lia]. intros _. rewrite P1, (V L). repeat split. rewrite set_status_valid, (V L). reflexivity.
  - split; [exact Cf|]. split; [intro; lia|]. intros _. split; reflexivity.
Qed.

(** *** Byte splits *)

Lemma testbit_0xFF m : 0 <= m -> Z.testbit 0xFF m = (m <? 8).
Proof.
  intro Hm. destruct (Z.lt_ge_cases m 8) as [L|L].
  - assert (m = 0 \/ m = 1 \/ m = 2 \/ m = 3 \/ m = 4 \/ m = 5 \/ m = 6 \/ m = 7)
      as D by lia.
    destruct D as [->|[->|[->|[->|[->|[->|[->| ->]]]]]]]; reflexivity.
  - rewrite (Z.bits_above_log2 0xFF m) by (simpl; lia).
    symmetry. apply Z.ltb_ge. exact L.
Qed.

Lemma testbit_byte_at x s n :
  0 <= s -> 0 <= n ->
  Z.testbit (Z.shiftl (Z.land (Z.shiftr x s) 0xFF) s) n =
  (s <=? n) && (n <? s + 8) && Z.testbit x n.
Proof.
  intros Hs Hn. rewrite Z.shiftl_spec by lia.
  destruct (Z.lt_ge_cases n s) as [L|L].
  - rewrite Z.testbit_neg_r by lia.
    replace (s <=? n) with false by (symmetry; apply Z.leb_gt; lia). reflexivity.
  - rewrite Z.land_spec, Z.shiftr_spec, testbit_0xFF by lia.
    replace (n - s + s) with n by lia.
    replace (s <=? n) with true by (symmetry; apply Z.leb_le; lia).
    replace (n - s <? 8) with (n <? s + 8)
      by (destruct (Z.ltb_spec (n - s) 8), (Z.ltb_spec n (s + 8)); lia).
    rewrite andb_comm. reflexivity.
Qed.

Ltac decide_bounds :=
  repeat match goal with
  | |- context [?a <=? ?b] => destruct (Z.leb_spec a b)
  | |- context [?a <? ?b] => destruct (Z.ltb_spec a b)
  end; cbn [andb orb]; try lia; try reflexivity.

Lemma u16_bytes_roundtrip x :
  0 <= x < 65536 ->
  KISS_BYTE_TO_UINT16 (nth 0 (u16_bytes x) 0) (nth 1 (u16_bytes x) 0) = x.
Proof.
  intro Hx. unfold KISS_BYTE_TO_UINT16, u16_bytes; cbn [nth].
  change (Z.land x 0xFF) with (Z.shiftl (Z.land (Z.shiftr x 0) 0xFF) 0).
  apply Z.bits_inj'. intros n Hn.
  rewrite Z.lor_spec, !testbit_byte_at by lia.
  rewrite <- (Z.mod_small x (2 ^ 16)) by (simpl; lia).
  rewrite Z.testbit_mod_pow2 by lia.
  destruct (Z.testbit x n); rewrite ?andb_true_r, ?andb_false_r; decide_bounds.
Qed.

Lemma u32_bytes_roundtrip x :
  0 <= x < 4294967296 ->
  KISS_BYTE_TO_UINT32 (nth 0 (u32_bytes x) 0) (nth 1 (u32_bytes x) 0)
                      (nth 2 (u32_bytes x) 0) (nth 3 (u32_bytes x) 0) = x.
Proof.
  intro Hx. unfold KISS_BYTE_TO_UINT32, u32_bytes; cbn [nth].
  change (Z.land x 0xFF) with (Z.shiftl (Z.land (Z.shiftr x 0) 0xFF) 0).
  apply Z.bits_inj'. intros n Hn.
  rewrite !Z.lor_spec, !testbit_byte_at by lia.
  rewrite <- (Z.mod_small x (2 ^ 32)) by (simpl; lia).
  rewrite Z.testbit_mod_pow2 by lia.
  destruct (Z.testbit x n); rewrite ?andb_true_r, ?andb_false_r; decide_bounds.
Qed.

Lemma stuff_byte_cases b :
  (b = KISS_FEND \/ b = KISS_FESC) /\ length (stuff_byte b) = 2%nat \/
  (b <> KISS_FEND /\ b <> KISS_FESC) /\ stuff_byte b = [b].
Proof.
  unfold stuff_byte. destruct (b =? KISS_FEND) eqn:E1; [|destruct (b =? KISS_FESC) eqn:E2].
  - left. apply Z.eqb_eq in E1. auto.
  - left. apply Z.eqb_eq in E2. auto.
  - right. apply Z.eqb_neq in E1, E2. auto.
Qed.

Lemma stuff_length_le data : (length (stuff data) <= 2 * length data)%nat.
Proof.
  induction data as [|b data IH]; [simpl; lia|].
  rewrite stuff_cons, length_app. pose proof (stuff_byte_length b). simpl length. lia.
Qed.

(** **** Extra properties: kiss_send_frame and the senders *)

(** [kiss_send_frame] never changes the frame in the buffer.  It either
    succeeds (status Transmitted), or reports the [write] callback's error
    (status ErrorState), both only from Transmitting; or it returns
    CallbackMissing, DataNotEncoded or PaddingOverflow without calling
    [write] and without changing the instance. *)
Theorem kiss_send_frame_outcome WS write_cb k ws :
  let '(rc, k', ws') := kiss_send_frame WS write_cb k ws in
  buffer k' = buffer k /\ index k' = index k /\
  ((rc = KISS_OK /\ Status k' = KISS_STATUS_TRANSMITTED /\
      Status k = KISS_STATUS_TRANSMITTING) \/
   (rc <> KISS_OK /\ Status k' = KISS_STATUS_ERROR_STATE /\
      Status k = KISS_STATUS_TRANSMITTING) \/
   ((rc = KISS_ERR_CALLBACK_MISSING \/ rc = KISS_ERR_DATA_NOT_ENCODED \/
     rc = KISS_ERR_PADDING_OVERFLOW) /\ k' = k /\ ws' = ws)).
Proof.
  pose proof (kiss_send_frame_cases WS write_cb k ws) as H.
  destruct (kiss_send_frame WS write_cb k ws) as [[rc k'] ws'].
  destruct H as (_ & B & I & _ & [H|[H|H]]); split; auto; split; auto.
  - right; left; tauto.
  - right; right; tauto.
Qed.

(** A frame is handed to the transport at most once: after [kiss_send_frame]
    (with [write] installed and a valid padding), a second call returns
    DataNotEncoded without calling [write], whatever the first outcome. *)
Theorem kiss_send_frame_at_most_once WS write_cb k ws ws2 :
  write_set k = true -> padding k <= KISS_MAX_PADDING ->
  let '(_, k', _) := kiss_send_frame WS write_cb k ws in
  kiss_send_frame WS write_cb k' ws2 = (KISS_ERR_DATA_NOT_ENCODED, k', ws2).
Proof.
  intros W P. pose proof (kiss_send_frame_cases WS write_cb k ws) as H.
  destruct (kiss_send_frame WS write_cb k ws) as [[rc k'] ws'].
  destruct H as ((_ & _ & W' & _ & _) & _ & _ & _ & H).
  assert (N : Status k' <> KISS_STATUS_TRANSMITTING).
  { destruct H as [(_ & S' & _)|[(_ & S' & _)|(H & -> & _)]]; try (rewrite S'; discriminate).
    destruct H as [(_ & E)|[(_ & E)|(_ & E)]]; [congruence|exact E|lia]. }
  unfold kiss_send_frame at 1. rewrite W', W. cbn [negb].
  destruct (status_eqb (Status k') KISS_STATUS_TRANSMITTING) eqn:E.
  - apply status_eqb_true in E. contradiction.
  - reflexivity.
Qed.

Lemma kiss_send_frame_at_most_once_witness :
  write_set (mk_kiss (kiss_frame 0 [1]) 4 4 0 true true KISS_STATUS_TRANSMITTING 1 false) = true /\
  padding (mk_kiss (kiss_frame 0 [1]) 4 4 0 true true KISS_STATUS_TRANSMITTING 1 false)
    <= KISS_MAX_PADDING /\
  (let '(_, k', _) := kiss_send_frame _ log_writer
        (mk_kiss (kiss_frame 0 [1]) 4 4 0 true true KISS_STATUS_TRANSMITTING 1 false) [] in
   kiss_send_frame _ log_writer k' [] = (KISS_ERR_DATA_NOT_ENCODED, k', [])).
Proof.
  split; [reflexivity|]. split; [unfold KISS_MAX_PADDING; simpl; lia|].
  apply (kiss_send_frame_at_most_once _ log_writer
           (mk_kiss (kiss_frame 0 [1]) 4 4 0 true true KISS_STATUS_TRANSMITTING 1 false) [] []);
    [reflexivity | unfold KISS_MAX_PADDING; simpl; lia].
Defined.

(** [kiss_encode_and_send] with a transport that accepts every block: when
    the stuffed frame fits in the buffer it returns OK with status
    Transmitted, and the transport receives [padding] FEND bytes (if
    [padding > 0]) and then exactly the frame
    [FEND | stuffed header | stuffed payload | FEND]; otherwise it returns
    BufferOverflow and writes nothing. *)
Theorem kiss_encode_and_send_writes_frame k log data header :
  length (buffer k) = buffer_size k -> write_set k = true ->
  0 <= padding k <= KISS_MAX_PADDING ->
  let '(rc, k', log') := kiss_encode_and_send _ log_writer k log data header in
  ((frame_length header data <= buffer_size k)%nat ->
     rc = KISS_OK /\ Status k' = KISS_STATUS_TRANSMITTED /\
     log' = log ++ padding_writes (padding k) ++ [kiss_frame header data]) /\
  ((buffer_size k < frame_length header data)%nat ->
     rc = KISS_ERR_BUFFER_OVERFLOW /\ log' = log).
Proof.
  intros L W P. pose proof (kiss_encode_and_send_log k log data header L W P) as H.
  destruct (kiss_encode_and_send _ log_writer k log data header) as [[rc k'] log'].
  destruct H as (_ & H1 & H2). split; [|exact H2].
  intro C. destruct (H1 C) as (A & B & _ & D). auto.
Qed.

Lemma kiss_encode_and_send_writes_frame_witness :
  let k := mk_kiss (repeat 0 8) 8 0 0 true true KISS_STATUS_NOTHING 2 false in
  length (buffer k) = buffer_size k /\ write_set k = true /\
  0 <= padding k <= KISS_MAX_PADDING /\
  (let '(rc, k', log') := kiss_encode_and_send _ log_writer k [] [0xC0; 7] 0 in
   ((frame_length 0%Z [0xC0; 7]%Z <= buffer_size k)%nat ->
      rc = KISS_OK /\ Status k' = KISS_STATUS_TRANSMITTED /\
      log' = [] ++ padding_writes (padding k) ++ [kiss_frame 0 [0xC0; 7]]) /\
   ((buffer_size k < frame_length 0%Z [0xC0; 7]%Z)%nat ->
      rc = KISS_ERR_BUFFER_OVERFLOW /\ log' = [])).
Proof.
  cbv zeta. split; [reflexivity|]. split; [reflexivity|].
  split; [unfold KISS_MAX_PADDING; simpl; lia|].
  apply (kiss_encode_and_send_writes_frame
           (mk_kiss (repeat 0 8) 8 0 0 true true KISS_STATUS_NOTHING 2 false) [] [0xC0; 7] 0);
    [reflexivity | reflexivity | unfold KISS_MAX_PADDING; simpl; lia].
Defined.

(** [kiss_set_TXdelay] records the new delay in the instance as soon as its
    argument checks pass, even when the frame then cannot be built.  Its
    [buffer_size >= 4] check is one byte short for the delays 0xC0 and
    0xDB, whose stuffed control frame takes 5 bytes: with a 4-byte buffer
    they give BufferOverflow and nothing is written.  Otherwise (with a
    transport that accepts every block) the frame [C0 10 <stuffed delay> C0]
    is sent after the padding. *)
Theorem kiss_set_TXdelay_frame k log tx :
  0 < tx < 256 -> (4 <= buffer_size k)%nat ->
  length (buffer k) = buffer_size k -> write_set k = true ->
  0 <= padding k <= KISS_MAX_PADDING ->
  let '(rc, k', log') := kiss_set_TXdelay _ log_writer k log tx in
  TXdelay k' = tx /\
  (buffer_size k = 4%nat /\ (tx = KISS_FEND \/ tx = KISS_FESC) ->
     rc = KISS_ERR_BUFFER_OVERFLOW /\ log' = log) /\
  (~ (buffer_size k = 4%nat /\ (tx = KISS_FEND \/ tx = KISS_FESC)) ->
     rc = KISS_OK /\
     log' = log ++ padding_writes (padding k) ++ [kiss_frame KISS_HEADER_TX_DELAY [tx]]).
Proof.
  intros Ht Hb L W P. unfold kiss_set_TXdelay.
  replace (tx =? 0) with false by (symmetry; apply Z.eqb_neq; lia).
  replace (buffer_size k <? 4)%nat with false by (symmetry; apply Nat.ltb_ge; lia).
  set (k0 := mk_kiss (buffer k) (buffer_size k) (index k) tx (write_set k)
                     (read_set k) (Status k) (padding k) (oob_write k)).
  pose proof (kiss_encode_and_send_log k0 log [tx] KISS_HEADER_TX_DELAY L W P) as H.
  destruct (kiss_encode_and_send _ log_writer k0 log [tx] KISS_HEADER_TX_DELAY)
    as [[rc k'] log'].
  destruct H as ((_ & T & _) & H1 & H2).
  assert (FL : frame_length KISS_HEADER_TX_DELAY [tx] = (3 + length (stuff_byte tx))%nat)
    by (unfold frame_length, stuff; cbn [flat_map]; rewrite app_nil_r; reflexivity).
  rewrite FL in H1, H2. simpl buffer_size in H1, H2.
  split; [exact T|].
  destruct (stuff_byte_cases tx) as [(C & Lt)|(C & Lt)]; rewrite ?Lt in H1, H2.
  - split.
    + intros (E & _). apply H2. lia.
    + intro N. assert (buffer_size k <> 4%nat) by tauto.
      destruct (H1 ltac:(lia)) as (A & _ & _ & D). auto.
  - simpl length in H1. split.
    + intros (_ & [E|E]); exfalso; tauto.
    + intros _. destruct (H1 ltac:(lia)) as (A & _ & _ & D). auto.
Qed.

Lemma kiss_set_TXdelay_frame_witness :
  0 < 0xC0 < 256 /\ (4 <= buffer_size (blank_instance 4))%nat /\
  length (buffer (blank_instance 4)) = buffer_size (blank_instance 4) /\
  write_set (blank_instance 4) = true /\
  0 <= padding (blank_instance 4) <= KISS_MAX_PADDING /\
  (let '(rc, k', log') := kiss_set_TXdelay _ log_writer (blank_instance 4) [] 0xC0 in
   TXdelay k' = 0xC0 /\
   (buffer_size (blank_instance 4) = 4%nat /\ (0xC0 = KISS_FEND \/ 0xC0 = KISS_FESC) ->
      rc = KISS_ERR_BUFFER_OVERFLOW /\ log' = []) /\
   (~ (buffer_size (blank_instance 4) = 4%nat /\ (0xC0 = KISS_FEND \/ 0xC0 = KISS_FESC)) ->
      rc = KISS_OK /\
      log' = [] ++ padding_writes (padding (blank_instance 4)) ++
             [kiss_frame KISS_HEADER_TX_DELAY [0xC0]])).
Proof.
  split; [lia|]. split; [simpl; lia|]. split; [reflexivity|]. split; [reflexivity|].
  split; [unfold KISS_MAX_PADDING; simpl; lia|].
  apply (kiss_set_TXdelay_frame (blank_instance 4) [] 0xC0);
    [lia | simpl; lia | reflexivity | reflexivity | unfold KISS_MAX_PADDING; simpl; lia].
Defined.

(** The table-driven [kiss_crc32] computes the reflected CRC-32 of the
    polynomial 0xEDB88320 (initial value and final complement 0xFFFFFFFF):
    on any byte sequence it agrees with the bit-at-a-time definition. *)
Theorem kiss_crc32_is_bitwise_crc32 data :
  Forall (fun b => 0 <= b < 256) data -> kiss_crc32 data = crc32_bitwise data.
Proof.
  intro H. unfold kiss_crc32, crc32_bitwise.
  rewrite crc32_loop_bits; [reflexivity | unfold MASK32; lia | exact H].
Qed.

Lemma kiss_crc32_is_bitwise_crc32_witness :
  Forall (fun b => 0 <= b < 256) [49; 50; 51; 52; 53; 54; 55; 56; 57] /\
  kiss_crc32 [49; 50; 51; 52; 53; 54; 55; 56; 57] =
  crc32_bitwise [49; 50; 51; 52; 53; 54; 55; 56; 57].
Proof.
  split; [repeat constructor; lia|].
  apply kiss_crc32_is_bitwise_crc32. repeat constructor; lia.
Defined.

(** [kiss_set_speed] sends the baud rate as four little-endian bytes, which
    [KISS_BYTE_TO_UINT32] reassembles into the rate.  Its [buffer_size >= 7]
    check only covers a rate with no byte to escape: the frame is sent when
    its stuffed length fits the buffer (always from 11 bytes on) and
    otherwise the call reports BufferOverflow without writing anything. *)
Theorem kiss_set_speed_frame k log B :
  0 < B < 4294967296 -> (7 <= buffer_size k)%nat ->
  length (buffer k) = buffer_size k -> write_set k = true ->
  0 <= padding k <= KISS_MAX_PADDING ->
  let '(rc, k', log') := kiss_set_speed _ log_writer k log B in
  KISS_BYTE_TO_UINT32 (nth 0 (u32_bytes B) 0) (nth 1 (u32_bytes B) 0)
                      (nth 2 (u32_bytes B) 0) (nth 3 (u32_bytes B) 0) = B /\
  ((frame_length KISS_HEADER_SPEED (u32_bytes B) <= buffer_size k)%nat ->
     rc = KISS_OK /\
     log' = log ++ padding_writes (padding k) ++ [kiss_frame KISS_HEADER_SPEED (u32_bytes B)]) /\
  ((buffer_size k < frame_length KISS_HEADER_SPEED (u32_bytes B))%nat ->
     rc = KISS_ERR_BUFFER_OVERFLOW /\ log' = log) /\
  ((11 <= buffer_size k)%nat -> rc = KISS_OK).
Proof.
  intros HB Hb L W P. unfold kiss_set_speed.
  replace (B =? 0) with false by (symmetry; apply Z.eqb_neq; lia).
  replace (buffer_size k <? 7)%nat with false by (symmetry; apply Nat.ltb_ge; lia).
  pose proof (kiss_encode_and_send_log k log (u32_bytes B) KISS_HEADER_SPEED L W P) as H.
  destruct (kiss_encode_and_send _ log_writer k log (u32_bytes B) KISS_HEADER_SPEED)
    as [[rc k'] log'].
  destruct H as (_ & H1 & H2).
  assert (FL : (frame_length KISS_HEADER_SPEED (u32_bytes B) <= 11)%nat).
  { unfold frame_length. pose proof (stuff_length_le (u32_bytes B)) as S.
    change (length (u32_bytes B)) with 4%nat in S.
    change (length (stuff_byte KISS_HEADER_SPEED)) with 1%nat. lia. }
  split; [apply u32_bytes_roundtrip; lia|].
  split; [intro F; destruct (H1 F) as (A & _ & _ & D); auto|].
  split; [exact H2|].
  intro F. apply H1. lia.
Qed.

Lemma kiss_set_speed_frame_witness :
  0 < 9600 < 4294967296 /\ (7 <= buffer_size (blank_instance 11))%nat /\
  length (buffer (blank_instance 11)) = buffer_size (blank_instance 11) /\
  write_set (blank_instance 11) = true /\
  0 <= padding (blank_instance 11) <= KISS_MAX_PADDING /\
  (let '(rc, k', log') := kiss_set_speed _ log_writer (blank_instance 11) [] 9600 in
   KISS_BYTE_TO_UINT32 (nth 0 (u32_bytes 9600) 0) (nth 1 (u32_bytes 9600) 0)
                       (nth 2 (u32_bytes 9600) 0) (nth 3 (u32_bytes 9600) 0) = 9600 /\
   ((frame_length KISS_HEADER_SPEED (u32_bytes 9600) <= buffer_size (blank_instance 11))%nat ->
      rc = KISS_OK /\
      log' = [] ++ padding_writes (padding (blank_instance 11)) ++
             [kiss_frame KISS_HEADER_SPEED (u32_bytes 9600)]) /\
   ((buffer_size (blank_instance 11) < frame_length KISS_HEADER_SPEED (u32_bytes 9600))%nat ->
      rc = KISS_ERR_BUFFER_OVERFLOW /\ log' = []) /\
   ((11 <= buffer_size (blank_instance 11))%nat -> rc = KISS_OK)).
Proof.
  split; [lia|]. split; [simpl; lia|]. split; [reflexivity|]. split; [reflexivity|].
  split; [unfold KISS_MAX_PADDING; simpl; lia|].
  apply (kiss_set_speed_frame (blank_instance 11) [] 9600);
    [lia | simpl; lia | reflexivity | reflexivity | unfold KISS_MAX_PADDING; simpl; lia].
Defined.

(** With a buffer of at least 3 bytes (the check the three functions make),
    [kiss_send_ack], [kiss_send_nack] and [kiss_send_ping] always succeed
    and write, after the padding, the three-byte frames [C0 A0 C0],
    [C0 A5 C0] and [C0 80 C0]. *)
Theorem kiss_send_control_frames k log :
  (3 <= buffer_size k)%nat ->
  length (buffer k) = buffer_size k -> write_set k = true ->
  0 <= padding k <= KISS_MAX_PADDING ->
  (let '(rc, k', log') := kiss_send_ack _ log_writer k log in
   rc = KISS_OK /\ Status k' = KISS_STATUS_TRANSMITTED /\
   log' = log ++ padding_writes (padding k) ++ [[0xC0; 0xA0; 0xC0]]) /\
  (let '(rc, k', log') := kiss_send_nack _ log_writer k log in
   rc = KISS_OK /\ Status k' = KISS_STATUS_TRANSMITTED /\
   log' = log ++ padding_writes (padding k) ++ [[0xC0; 0xA5; 0xC0]]) /\
  (let '(rc, k', log') := kiss_send_ping _ log_writer k log in
   rc = KISS_OK /\ Status k' = KISS_STATUS_TRANSMITTED /\
   log' = log ++ padding_writes (padding k) ++ [[0xC0; 0x80; 0xC0]]).
Proof.
  intros Hb L W P.
  assert (G : forall h, frame_length h [] = 3%nat -> kiss_frame h [] = [0xC0; h; 0xC0] ->
    let '(rc, k', log') := kiss_send_control _ log_writer h k log in
    rc = KISS_OK /\ Status k' = KISS_STATUS_TRANSMITTED /\
    log' = log ++ padding_writes (padding k) ++ [[0xC0; h; 0xC0]]).
  { intros h FL KF. unfold kiss_send_control.
    replace (buffer_size k <? 3)%nat with false by (symmetry; apply Nat.ltb_ge; lia).
    pose proof (kiss_encode_and_send_log k log [] h L W P) as H.
    destruct (kiss_encode_and_send _ log_writer k log [] h) as [[rc k'] log'].
    destruct H as (_ & H1 & _). rewrite FL, KF in H1.
    destruct (H1 Hb) as (A & S & _ & D). auto. }
  unfold kiss_send_ack, kiss_send_nack, kiss_send_ping.
  split; [|split]; apply G; reflexivity.
Qed.

Lemma kiss_send_control_frames_witness :
  (3 <= buffer_size (blank_instance 3))%nat /\
  length (buffer (blank_instance 3)) = buffer_size (blank_instance 3) /\
  write_set (blank_instance 3) = true /\
  0 <= padding (blank_instance 3) <= KISS_MAX_PADDING /\
  ((let '(rc, k', log') := kiss_send_ack _ log_writer (blank_instance 3) [] in
    rc = KISS_OK /\ Status k' = KISS_STATUS_TRANSMITTED /\
    log' = [] ++ padding_writes (padding (blank_instance 3)) ++ [[0xC0; 0xA0; 0xC0]]) /\
   (let '(rc, k', log') := kiss_send_nack _ log_writer (blank_instance 3) [] in
    rc = KISS_OK /\ Status k' = KISS_STATUS_TRANSMITTED /\
    log' = [] ++ padding_writes (padding (blank_instance 3)) ++ [[0xC0; 0xA5; 0xC0]]) /\
   (let '(rc, k', log') := kiss_send_ping _ log_writer (blank_instance 3) [] in
    rc = KISS_OK /\ Status k' = KISS_STATUS_TRANSMITTED /\
    log' = [] ++ padding_writes (padding (blank_instance 3)) ++ [[0xC0; 0x80; 0xC0]])).
Proof.
  split; [simpl; lia|]. split; [reflexivity|]. split; [reflexivity|].
  split; [unfold KISS_MAX_PADDING; simpl; lia|].
  apply (kiss_send_control_frames (blank_instance 3) []);
    [simpl; lia | reflexivity | reflexivity | unfold KISS_MAX_PADDING; simpl; lia].
Defined.

(** [kiss_send_command] sends the 16-bit command as two little-endian bytes,
    which [KISS_BYTE_TO_UINT16] reassembles.  It makes no size check of its
    own: the frame is sent when its stuffed length fits (always from 7
    bytes on) and otherwise BufferOverflow is returned and nothing written. *)
Theorem kiss_send_command_frame k log command :
  0 <= command < 65536 ->
  length (buffer k) = buffer_size k -> write_set k = true ->
  0 <= padding k <= KISS_MAX_PADDING ->
  let '(rc, k', log') := kiss_send_command _ log_writer k log command in
  KISS_BYTE_TO_UINT16 (nth 0 (u16_bytes command) 0) (nth 1 (u16_bytes command) 0) = command /\
  ((frame_length KISS_HEADER_COMMAND (u16_bytes command) <= buffer_size k)%nat ->
     rc = KISS_OK /\
     log' = log ++ padding_writes (padding k) ++
            [kiss_frame KISS_HEADER_COMMAND (u16_bytes command)]) /\
  ((buffer_size k < frame_length KISS_HEADER_COMMAND (u16_bytes command))%nat ->
     rc = KISS_ERR_BUFFER_OVERFLOW /\ log' = log) /\
  ((7 <= buffer_size k)%nat -> rc = KISS_OK).
Proof.
  intros Hc L W P. unfold kiss_send_command.
  pose proof (kiss_encode_and_send_log k log (u16_bytes command) KISS_HEADER_COMMAND L W P) as H.
  destruct (kiss_encode_and_send _ log_writer k log (u16_bytes command) KISS_HEADER_COMMAND)
    as [[rc k'] log'].
  destruct H as (_ & H1 & H2).
  assert (FL : (frame_length KISS_HEADER_COMMAND (u16_bytes command) <= 7)%nat).
  { unfold frame_length. pose proof (stuff_length_le (u16_bytes command)) as S.
    change (length (u16_bytes command)) with 2%nat in S.
    change (length (stuff_byte KISS_HEADER_COMMAND)) with 1%nat. lia. }
  split; [apply u16_bytes_roundtrip; lia|].
  split; [intro F; destruct (H1 F) as (A & _ & _ & D); auto|].
  split; [exact H2|].
  intro F. apply H1. lia.
Qed.

Lemma kiss_send_command_frame_witness :
  0 <= 0xC0DB < 65536 /\
  length (buffer (blank_instance 6)) = buffer_size (blank_instance 6) /\
  write_set (blank_instance 6) = true /\
  0 <= padding (blank_instance 6) <= KISS_MAX_PADDING /\
  (let '(rc, k', log') := kiss_send_command _ log_writer (blank_instance 6) [] 0xC0DB in
   KISS_BYTE_TO_UINT16 (nth 0 (u16_bytes 0xC0DB) 0) (nth 1 (u16_bytes 0xC0DB) 0) = 0xC0DB /\
   ((frame_length KISS_HEADER_COMMAND (u16_bytes 0xC0DB) <= buffer_size (blank_instance 6))%nat ->
      rc = KISS_OK /\
      log' = [] ++ padding_writes (padding (blank_instance 6)) ++
             [kiss_frame KISS_HEADER_COMMAND (u16_bytes 0xC0DB)]) /\
   ((buffer_size (blank_instance 6) < frame_length KISS_HEADER_COMMAND (u16_bytes 0xC0DB))%nat ->
      rc = KISS_ERR_BUFFER_OVERFLOW /\ log' = []) /\
   ((7 <= buffer_size (blank_instance 6))%nat -> rc = KISS_OK)).
Proof.
  split; [lia|]. split; [reflexivity|]. split; [reflexivity|].
  split; [unfold KISS_MAX_PADDING; simpl; lia|].
  apply (kiss_send_command_frame (blank_instance 6) [] 0xC0DB);
    [lia | reflexivity | reflexivity | unfold KISS_MAX_PADDING; simpl; lia].
Defined.

(** *** Helpers for kiss_set_param *)

Lemma frame_length_app h A B :
  frame_length h (A ++ B) = (frame_length h A + length (stuff B))%nat.
Proof. unfold frame_length. rewrite stuff_app, length_app. lia. Qed.

Lemma frame_length_u16 h x :
  (frame_length h (u16_bytes x) <= 2 + length (stuff_byte h) + 4)%nat.
Proof.
  unfold frame_length. pose proof (stuff_length_le (u16_bytes x)) as S.
  change (length (u16_bytes x)) with 2%nat in S. lia.
Qed.

Lemma set_status_Status_self k : set_status k (Status k) = k.
Proof. destruct k; reflexivity. Qed.

Lemma kiss_encode_rc k data header :
  fst (kiss_encode k data header) = KISS_OK /\
  (frame_length header data <= buffer_size k)%nat \/
  fst (kiss_encode k data header) = KISS_ERR_BUFFER_OVERFLOW /\
  (buffer_size k < frame_length header data)%nat.
Proof.
  pose proof (kiss_encode_spec k data header) as E.
  destruct (kiss_encode k data header) as [rc k']. simpl.
  destruct E as (_ & _ & _ & [(C & -> & _)|(C & -> & _)]); auto.
Qed.

Lemma kiss_encode_ok_status k data header :
  fst (kiss_encode k data header) = KISS_OK ->
  Status (snd (kiss_encode k data header)) = KISS_STATUS_TRANSMITTING.
Proof.
  pose proof (kiss_encode_spec k data header) as E.
  destruct (kiss_encode k data header) as [rc k']. simpl.
  destruct E as (_ & _ & _ & [(_ & -> & _ & S & _)|(_ & -> & _)]); [auto|discriminate].
Qed.

(** [kiss_set_param] as [kiss_encode_and_send] of the ID bytes and the parameter. *)
Lemma set_param_as_encode_and_send WS write_cb k ws ID param :
  length (buffer k) = buffer_size k -> param <> [] ->
  (5 + length param <= buffer_size k)%nat ->
  let '(rc1, k1, ws1) := kiss_set_param WS write_cb k ws ID param in
  let '(rc2, k2, ws2) :=
    kiss_encode_and_send WS write_cb k ws (u16_bytes ID ++ param) KISS_HEADER_SET_PARAM in
  rc1 = rc2 /\ ws1 = ws2 /\
  (fst (kiss_encode k (u16_bytes ID ++ param) KISS_HEADER_SET_PARAM) = KISS_OK -> k1 = k2).
Proof.
  intros L Hp Hb. unfold kiss_set_param, kiss_encode_and_send.
  replace (buffer_size k <? 5 + length param)%nat with false
    by (symmetry; apply Nat.ltb_ge; lia).
  pose proof (push_encode_after_encode k (u16_bytes ID) param KISS_HEADER_SET_PARAM L Hp) as PE.
  pose proof (kiss_encode_rc k (u16_bytes ID) KISS_HEADER_SET_PARAM) as RA.
  pose proof (kiss_encode_rc k (u16_bytes ID ++ param) KISS_HEADER_SET_PARAM) as RC.
  pose proof (kiss_encode_ok_status k (u16_bytes ID ++ param) KISS_HEADER_SET_PARAM) as ST.
  rewrite frame_length_app in RC.
  destruct (kiss_encode k (u16_bytes ID) KISS_HEADER_SET_PARAM) as [ra ka].
  destruct (kiss_encode k (u16_bytes ID ++ param) KISS_HEADER_SET_PARAM) as [r3 k3].
  simpl fst in *; simpl snd in *.
  destruct RA as [(-> & _)|(-> & Ca)].
  - specialize (PE eq_refl).
    destruct (kiss_push_encode ka param) as [r2 k2].
    destruct PE as (-> & _ & _ & _ & Hk).
    destruct (Z.eq_dec r3 KISS_OK) as [->|N].
    + rewrite (Hk eq_refl). cbn [negb Z.eqb].
      rewrite <- (ST eq_refl), set_status_Status_self.
      destruct (kiss_send_frame WS write_cb k3 ws) as [[a b] c]. simpl. auto.
    + replace (negb (r3 =? KISS_OK)) with true by (symmetry; apply negb_true_iff, Z.eqb_neq; exact N).
      cbn [negb Z.eqb KISS_OK]. split; [reflexivity|]. split; [reflexivity|]. intro E; contradiction.
  - destruct RC as [(-> & C)|(-> & _)]; [lia|].
    cbn [negb Z.eqb KISS_ERR_BUFFER_OVERFLOW KISS_OK].
    split; [reflexivity|]. split; [reflexivity|]. intro E; discriminate.
Qed.

(** When its size check passes and the parameter is not empty,
    [kiss_set_param] behaves as [kiss_encode_and_send] of the two ID bytes
    (low byte first) followed by the parameter, under the SET_PARAM header:
    same return code, same writes, and the same final instance whenever that
    frame can be encoded. *)
Theorem kiss_set_param_is_encode_and_send WS write_cb k ws ID param :
  length (buffer k) = buffer_size k -> param <> [] ->
  (5 + length param <= buffer_size k)%nat ->
  let '(rc1, k1, ws1) := kiss_set_param WS write_cb k ws ID param in
  let '(rc2, k2, ws2) :=
    kiss_encode_and_send WS write_cb k ws (u16_bytes ID ++ param) KISS_HEADER_SET_PARAM in
  rc1 = rc2 /\ ws1 = ws2 /\
  (fst (kiss_encode k (u16_bytes ID ++ param) KISS_HEADER_SET_PARAM) = KISS_OK -> k1 = k2).
Proof. exact (set_param_as_encode_and_send WS write_cb k ws ID param). Qed.

Lemma kiss_set_param_is_encode_and_send_witness :
  length (buffer (blank_instance 8)) = buffer_size (blank_instance 8) /\
  [0xC0] <> [] /\ (5 + length [0xC0] <= buffer_size (blank_instance 8))%nat /\
  (let '(rc1, k1, ws1) := kiss_set_param _ log_writer (blank_instance 8) [] 0x0102 [0xC0] in
   let '(rc2, k2, ws2) :=
     kiss_encode_and_send _ log_writer (blank_instance 8) [] (u16_bytes 0x0102 ++ [0xC0])
                          KISS_HEADER_SET_PARAM in
   rc1 = rc2 /\ ws1 = ws2 /\
   (fst (kiss_encode (blank_instance 8) (u16_bytes 0x0102 ++ [0xC0]) KISS_HEADER_SET_PARAM)
      = KISS_OK -> k1 = k2)).
Proof.
  split; [reflexivity|]. split; [discriminate|]. split; [simpl; lia|].
  apply (kiss_set_param_is_encode_and_send _ log_writer (blank_instance 8) [] 0x0102 [0xC0]);
    [reflexivity | discriminate | simpl; lia].
Defined.

(** With an empty parameter [kiss_set_param] never sends anything: it
    returns BufferOverflow or InvalidParams (the latter whenever the buffer
    has at least 7 bytes) and never calls [write]. *)
Theorem kiss_set_param_empty WS write_cb k ws ID :
  let '(rc, _, ws') := kiss_set_param WS write_cb k ws ID [] in
  ws' = ws /\ (rc = KISS_ERR_BUFFER_OVERFLOW \/ rc = KISS_ERR_INVALID_PARAMS) /\
  ((7 <= buffer_size k)%nat -> rc = KISS_ERR_INVALID_PARAMS).
Proof.
  unfold kiss_set_param. destruct (buffer_size k <? 5 + length [])%nat eqn:B.
  - apply Nat.ltb_lt in B. simpl length in B.
    split; [reflexivity|]. split; [auto|]. intro; lia.
  - pose proof (kiss_encode_rc k (u16_bytes ID) KISS_HEADER_SET_PARAM) as RA.
    pose proof (frame_length_u16 KISS_HEADER_SET_PARAM ID) as FL.
    change (length (stuff_byte KISS_HEADER_SET_PARAM)) with 1%nat in FL.
    destruct (kiss_encode k (u16_bytes ID) KISS_HEADER_SET_PARAM) as [ra ka].
    simpl fst in RA. destruct RA as [(-> & _)|(-> & C)].
    + cbn. auto.
    + cbn [negb Z.eqb KISS_ERR_BUFFER_OVERFLOW KISS_OK].
      split; [reflexivity|]. split; [auto|]. intro; lia.
Qed.

(** Outside the error state and with a non-empty parameter,
    [kiss_set_param_crc32] behaves as [kiss_encode_and_send] of the two ID
    bytes, the parameter and the four bytes (low byte first) of
    [~kiss_crc32_push(kiss_crc32(ID bytes), param)], under the SET_PARAM
    header: same return code, same writes, and the same final instance
    whenever that frame can be encoded.  It makes no size check of its own. *)
Theorem kiss_set_param_crc32_is_encode_and_send WS write_cb k ws ID param :
  length (buffer k) = buffer_size k -> param <> [] ->
  Status k <> KISS_STATUS_ERROR_STATE ->
  let CRC := u32_not (kiss_crc32_push (kiss_crc32 (u16_bytes ID)) param) in
  let frame_data := u16_bytes ID ++ param ++ u32_bytes CRC in
  let '(rc1, k1, ws1) := kiss_set_param_crc32 WS write_cb k ws ID param in
  let '(rc2, k2, ws2) :=
    kiss_encode_and_send WS write_cb k ws frame_data KISS_HEADER_SET_PARAM in
  rc1 = rc2 /\ ws1 = ws2 /\
  (fst (kiss_encode k frame_data KISS_HEADER_SET_PARAM) = KISS_OK -> k1 = k2).
Proof.
  intros L Hp Hs CRC frame_data. unfold kiss_set_param_crc32, kiss_encode_and_send.
  replace (status_eqb (Status k) KISS_STATUS_ERROR_STATE) with false
    by (symmetry; apply Bool.not_true_iff_false; rewrite status_eqb_true; exact Hs).
  fold CRC. subst frame_data.
  pose proof (push_encode_after_encode k (u16_bytes ID) param KISS_HEADER_SET_PARAM L Hp) as PE1.
  pose proof (push_encode_after_encode k (u16_bytes ID ++ param) (u32_bytes CRC)
                KISS_HEADER_SET_PARAM L ltac:(discriminate)) as PE2.
  rewrite <- app_assoc in PE2.
  pose proof (kiss_encode_rc k (u16_bytes ID) KISS_HEADER_SET_PARAM) as RA.
  pose proof (kiss_encode_rc k (u16_bytes ID ++ param) KISS_HEADER_SET_PARAM) as RB.
  pose proof (kiss_encode_rc k (u16_bytes ID ++ param ++ u32_bytes CRC)
                KISS_HEADER_SET_PARAM) as RC.
  pose proof (kiss_encode_ok_status k (u16_bytes ID ++ param ++ u32_bytes CRC)
                KISS_HEADER_SET_PARAM) as ST.
  rewrite frame_length_app in RB.
  assert (FLc : frame_length KISS_HEADER_SET_PARAM (u16_bytes ID ++ param ++ u32_bytes CRC) =
    (frame_length KISS_HEADER_SET_PARAM (u16_bytes ID) + length (stuff param) +
     length (stuff (u32_bytes CRC)))%nat)
    by (rewrite app_assoc, !frame_length_app; reflexivity).
  rewrite FLc in RC.
  destruct (kiss_encode k (u16_bytes ID) KISS_HEADER_SET_PARAM) as [ra ka].
  destruct (kiss_encode k (u16_bytes ID ++ param) KISS_HEADER_SET_PARAM) as [rb kb].
  destruct (kiss_encode k (u16_bytes ID ++ param ++ u32_bytes CRC) KISS_HEADER_SET_PARAM)
    as [rc kc].
  cbn [fst snd] in *.
  destruct RA as [(-> & _)|(-> & Ca)].
  - specialize (PE1 eq_refl).
    destruct (kiss_push_encode ka param) as [r2 k2].
    destruct PE1 as (-> & _ & _ & _ & Hk2).
    destruct RB as [(-> & Cb)|(-> & Cb)].
    + specialize (PE2 eq_refl). rewrite (Hk2 eq_refl).
      destruct (kiss_push_encode kb (u32_bytes CRC)) as [r4 k4].
      destruct PE2 as (-> & _ & _ & _ & Hk4).
      destruct RC as [(-> & Cc)|(-> & Cc)].
      * rewrite (Hk4 eq_refl). cbn [negb Z.eqb KISS_OK].
        rewrite <- (ST eq_refl), set_status_Status_self.
        destruct (kiss_send_frame WS write_cb kc ws) as [[a b] c]. simpl. auto.
      * cbn [negb Z.eqb KISS_OK KISS_ERR_BUFFER_OVERFLOW].
        split; [reflexivity|]. split; [reflexivity|]. intro E; discriminate.
    + destruct RC as [(-> & Cc)|(-> & Cc)]; [lia|].
      cbn [negb Z.eqb KISS_OK KISS_ERR_BUFFER_OVERFLOW].
      split; [reflexivity|]. split; [reflexivity|]. intro E; discriminate.
  - destruct RC as [(-> & Cc)|(-> & Cc)]; [lia|].
    cbn [negb Z.eqb KISS_OK KISS_ERR_BUFFER_OVERFLOW].
    split; [reflexivity|]. split; [reflexivity|]. intro E; discriminate.
Qed.

Lemma kiss_set_param_crc32_is_encode_and_send_witness :
  length (buffer (blank_instance 16)) = buffer_size (blank_instance 16) /\
  [0x2A] <> [] /\ Status (blank_instance 16) <> KISS_STATUS_ERROR_STATE /\
  (let CRC := u32_not (kiss_crc32_push (kiss_crc32 (u16_bytes 7)) [0x2A]) in
   let frame_data := u16_bytes 7 ++ [0x2A] ++ u32_bytes CRC in
   let '(rc1, k1, ws1) := kiss_set_param_crc32 _ log_writer (blank_instance 16) [] 7 [0x2A] in
   let '(rc2, k2, ws2) :=
     kiss_encode_and_send _ log_writer (blank_instance 16) [] frame_data KISS_HEADER_SET_PARAM in
   rc1 = rc2 /\ ws1 = ws2 /\
   (fst (kiss_encode (blank_instance 16) frame_data KISS_HEADER_SET_PARAM) = KISS_OK ->
    k1 = k2)).
Proof.
  split; [reflexivity|]. split; [discriminate|]. split; [discriminate|].
  apply (kiss_set_param_crc32_is_encode_and_send _ log_writer (blank_instance 16) [] 7 [0x2A]);
    [reflexivity | discriminate | discriminate].
Defined.

(** [kiss_encode_send_crc32] never sends: the [kiss_encode_crc32] it
    calls resets the status to NOTHING before appending the CRC, so that
    [kiss_push_encode] always refuses.  The call fails, leaves the instance
    in the error state and never calls [write].  [kiss_send_command_crc32],
    built on the same function, fails too. *)
Theorem kiss_crc32_senders_fail WS write_cb k ws data header command :
  (let '(rc, k', ws') := kiss_encode_send_crc32 WS write_cb k ws data header in
   rc <> KISS_OK /\ Status k' = KISS_STATUS_ERROR_STATE /\ ws' = ws) /\
  fst (kiss_send_command_crc32 k command) <> KISS_OK.
Proof.
  split.
  - unfold kiss_encode_send_crc32.
    pose proof (kiss_encode_crc32_rc k data header) as R.
    destruct (kiss_encode_crc32 k data header) as [err k1]. cbn [fst] in R.
    replace (negb (err =? KISS_OK)) with true
      by (symmetry; apply negb_true_iff, Z.eqb_neq; exact R).
    split; [exact R|]. split; [apply set_status_Status|reflexivity].
  - unfold kiss_send_command_crc32. apply kiss_encode_crc32_rc.
Qed.

(** *** Helpers for kiss_decode *)

Lemma decode_loop_length_aux n src room :
  (length src <= n)%nat -> (length (snd (decode_loop src room)) <= room)%nat.
Proof.
  revert src room; induction n as [|n IH]; intros src room Hl.
  - destruct src; [simpl; lia | simpl in Hl; lia].
  - destruct src as [|b src1]; [simpl; lia|]. simpl in Hl. cbn [decode_loop].
    destruct (b =? KISS_FEND); [simpl; lia|].
    destruct (b =? KISS_FESC).
    + destruct src1 as [|b2 src2]; [simpl; lia|]. simpl in Hl.
      destruct (b2 =? KISS_TFEND); [|destruct (b2 =? KISS_TFESC); [|simpl; lia]];
        (destruct room as [|r]; [simpl; lia|]);
        specialize (IH src2 r ltac:(lia));
        destruct (decode_loop src2 r) as [rc w]; simpl in *; lia.
    + destruct room as [|r]; [simpl; lia|].
      specialize (IH src1 r ltac:(lia)).
      destruct (decode_loop src1 r) as [rc w]; simpl in *; lia.
Qed.

Lemma decode_loop_length src room : (length (snd (decode_loop src room)) <= room)%nat.
Proof. apply (decode_loop_length_aux (length src)); lia. Qed.

Lemma kiss_decode_body_shape k v src max :
  let r := kiss_decode_body k v src max in
  (length (dec_out r) <= max)%nat /\
  (forall n, dec_len r = Some n -> n = length (dec_out r)) /\
  (dec_kiss r = k \/ dec_kiss r = set_status k KISS_STATUS_ERROR_STATE).
Proof.
  unfold kiss_decode_body. pose proof (decode_loop_length src max) as H.
  destruct (decode_loop src max) as [rc w]. simpl in H.
  destruct (rc =? KISS_ERR_INVALID_FRAME); [|destruct (rc =? KISS_ERR_BUFFER_OVERFLOW)];
    simpl; (split; [exact H|]); (split; [intros n E; try discriminate; injection E; auto|]); auto.
Qed.

Lemma kiss_stuff_loop_oob k data :
  oob_write (snd (kiss_stuff_loop k data)) = oob_write k.
Proof.
  revert k; induction data as [|x data IH]; intros k; [reflexivity|]. cbn [kiss_stuff_loop].
  destruct (x =? KISS_FEND); [|destruct (x =? KISS_FESC)];
    (destruct (buffer_size k <? index k + _)%nat eqn:C; [reflexivity|]);
    apply Nat.ltb_ge in C; rewrite IH; rewrite ?put_oob; auto;
    autorewrite with kiss_simpl; lia.
Qed.

(** [kiss_decode] never stores more than [output_max_size] bytes into
    [output]; the length it reports is the number of bytes it stored; and it
    changes nothing in the instance but its status (the buffer, the index
    and the configuration are left as they were). *)
Theorem kiss_decode_output_bounded k max :
  let r := kiss_decode k max in
  (length (dec_out r) <= max)%nat /\
  (forall n, dec_len r = Some n -> n = length (dec_out r)) /\
  dec_kiss r = set_status k (Status (dec_kiss r)).
Proof.
  assert (E : forall s, set_status k s = set_status k (Status (set_status k s)))
    by (intro s; rewrite set_status_Status; reflexivity).
  assert (Ek : k = set_status k (Status k)) by (symmetry; apply set_status_Status_self).
  assert (B : forall v src,
    let r := kiss_decode_body k v src max in
    (length (dec_out r) <= max)%nat /\
    (forall n, dec_len r = Some n -> n = length (dec_out r)) /\
    dec_kiss r = set_status k (Status (dec_kiss r))).
  { intros v src. pose proof (kiss_decode_body_shape k v src max) as (H1 & H2 & [H3|H3]);
      (split; [exact H1|]); (split; [exact H2|]); rewrite H3; auto. }
  unfold kiss_decode.
  destruct (negb (status_eqb (Status k) KISS_STATUS_RECEIVED)).
  { simpl. split; [lia|]. split; [discriminate|exact Ek]. }
  destruct (skip_fend (valid_bytes k)) as [|val src].
  { simpl. split; [lia|]. split; [intros n H; injection H; auto|exact (E _)]. }
  destruct (KISS_FESC =? val).
  - destruct src as [|v2 src2].
    + simpl. split; [lia|]. split; [discriminate|exact (E _)].
    + destruct (KISS_TFEND =? v2); [apply B|].
      destruct (KISS_TFESC =? v2); [apply B|].
      simpl. split; [lia|]. split; [discriminate|exact (E _)].
  - destruct (KISS_FEND =? val); [|apply B].
    simpl. split; [lia|]. split; [intros n H; injection H; auto|exact Ek].
Qed.

(** The encoders never write outside the buffer: [kiss_encode],
    [kiss_push_encode] and [kiss_encode_crc32] only store at positions
    below [buffer_size], whatever the instance and the data. *)
Theorem kiss_encoders_stay_in_buffer k data header :
  oob_write (snd (kiss_encode k data header)) = oob_write k /\
  oob_write (snd (kiss_push_encode k data)) = oob_write k /\
  oob_write (snd (kiss_encode_crc32 k data header)) = oob_write k.
Proof.
  assert (ENC : forall k data header,
             oob_write (snd (kiss_encode k data header)) = oob_write k).
  { intros k0 d h. pose proof (kiss_encode_spec k0 d h) as S.
    destruct (kiss_encode k0 d h) as [rc k']. simpl. tauto. }
  assert (PUSH : forall k data, oob_write (snd (kiss_push_encode k data)) = oob_write k).
  { intros k0 d. unfold kiss_push_encode. destruct d as [|x d]; [reflexivity|].
    destruct (status_eqb (Status k0) KISS_STATUS_ERROR_STATE); [reflexivity|].
    destruct (negb (status_eqb (Status k0) KISS_STATUS_TRANSMITTING)); [reflexivity|].
    destruct (index k0 =? 0)%nat; [reflexivity|].
    destruct (negb (load k0 (index k0 - 1) =? KISS_FEND)); [reflexivity|].
    pose proof (kiss_stuff_loop_oob (set_index k0 (index k0 - 1)) (x :: d)) as O.
    destruct (kiss_stuff_loop (set_index k0 (index k0 - 1)) (x :: d)) as [rc k1].
    simpl in O. destruct (negb (rc =? KISS_OK)); [exact O|].
    destruct (buffer_size k1 <? index k1 + 1)%nat eqn:C; [exact O|].
    apply Nat.ltb_ge in C. cbn [snd]. rewrite put_oob by lia. exact O. }
  split; [apply ENC|]. split; [apply PUSH|].
  unfold kiss_encode_crc32. destruct data as [|x d]; [reflexivity|].
  pose proof (ENC k (x :: d) header) as E1.
  destruct (kiss_encode k (x :: d) header) as [err k1]. simpl in E1.
  destruct (negb (err =? KISS_OK)); [exact E1|].
  destruct (status_eqb (Status (set_status k1 KISS_STATUS_NOTHING)) KISS_STATUS_ERROR_STATE);
    [simpl; exact E1|].
  match goal with |- context [kiss_push_encode ?kk ?dd] =>
    pose proof (PUSH kk dd) as E2; destruct (kiss_push_encode kk dd) as [err2 k2] end.
  cbn [snd] in E2. rewrite set_status_oob in E2.
  destruct (negb (err2 =? KISS_OK)); simpl; rewrite ?set_status_oob; congruence.
Qed.

(** *** Helpers for kiss_receive_frame *)

Lemma upd_app_middle out x l v : upd (out ++ x :: l) (length out) v = out ++ v :: l.
Proof. induction out as [|y out IH]; simpl; [reflexivity|]. rewrite IH; reflexivity. Qed.

(** Copying the byte at position [i = length out + length mid] down to
    position [length out]. *)
Lemma upd_shift out mid b src :
  exists mid2,
    upd (out ++ mid ++ b :: src) (length out) b = (out ++ [b]) ++ mid2 ++ src /\
    length mid2 = length mid /\
    nth (length out + length mid) (upd (out ++ mid ++ b :: src) (length out) b) 0 = b.
Proof.
  destruct mid as [|m mid].
  - exists []. rewrite app_nil_l, upd_app_middle. simpl length.
    rewrite Nat.add_0_r, app_nth2, Nat.sub_diag by lia.
    split; [rewrite <- app_assoc; reflexivity|]. split; reflexivity.
  - exists (mid ++ [b]). rewrite <- app_comm_cons, upd_app_middle.
    split; [rewrite <- !app_assoc; reflexivity|].
    split; [rewrite length_app; simpl; lia|].
    rewrite app_nth2 by (simpl; lia). replace (length out + length (m :: mid) - length out)%nat
      with (S (length mid)) by (simpl; lia).
    simpl. rewrite app_nth2, Nat.sub_diag by lia. reflexivity.
Qed.

Lemma store_fields k i v :
  (i < buffer_size k)%nat ->
  buffer (store k i v) = upd (buffer k) i v /\ buffer_size (store k i v) = buffer_size k /\
  index (store k i v) = index k /\ Status (store k i v) = Status k /\
  oob_write (store k i v) = oob_write k.
Proof. intro H; unfold store; apply Nat.ltb_lt in H; rewrite H; repeat split. Qed.

Lemma skipn_upd_gt l i j v : (i < j)%nat -> skipn j (upd l i v) = skipn j l.
Proof.
  revert i j; induction l as [|x l IH]; intros [|i] [|j] H; simpl; try lia; auto.
  apply IH; lia.
Qed.

Lemma store_block_fields k at_ data :
  length (buffer k) = buffer_size k -> (at_ + length data <= buffer_size k)%nat ->
  buffer (store_block k at_ data) =
    firstn at_ (buffer k) ++ data ++ skipn (at_ + length data) (buffer k) /\
  buffer_size (store_block k at_ data) = buffer_size k /\
  index (store_block k at_ data) = index k /\
  oob_write (store_block k at_ data) = oob_write k.
Proof.
  revert k at_; induction data as [|b data IH]; intros k at_ L H; simpl.
  { rewrite Nat.add_0_r, firstn_skipn. auto. }
  simpl length in H.
  destruct (store_fields k at_ b ltac:(lia)) as (B & BS & I & _ & O).
  assert (L1 : length (buffer (store k at_ b)) = buffer_size (store k at_ b))
    by (rewrite B, BS, upd_length; exact L).
  destruct (IH (store k at_ b) (S at_) L1 ltac:(rewrite BS; lia)) as (B2 & BS2 & I2 & O2).
  rewrite B2, BS2, I2, O2, BS, I, O. repeat split.
  rewrite B, firstn_upd_S by lia. rewrite skipn_upd_gt by lia.
  rewrite <- !app_assoc, Nat.add_succ_r. reflexivity.
Qed.

(** Once the frame is started with one FEND stored, further FEND bytes are
    skipped without touching the instance. *)
Lemma rx_scan_skip k i n p :
  (0 < i)%nat -> (p <= n)%nat -> (forall j, (j < p)%nat -> load k (i + j) = KISS_FEND) ->
  rx_scan k i n true 1 = rx_scan k (i + p) (n - p) true 1.
Proof.
  revert i n; induction p as [|p IH]; intros i n Hi Hp HF.
  { rewrite Nat.add_0_r, Nat.sub_0_r. reflexivity. }
  destruct n as [|n]; [lia|]. cbn [rx_scan negb].
  assert (E : load k i = KISS_FEND) by (rewrite <- (Nat.add_0_r i); apply HF; lia).
  rewrite E, Z.eqb_refl. replace (0 <? i)%nat with true by (symmetry; apply Nat.ltb_lt; lia).
  cbn [andb Nat.leb].
  rewrite (IH (S i) n) by (try lia; intros j Hj; replace (S i + j)%nat with (i + S j)%nat by lia; apply HF; lia).
  f_equal. lia.
Qed.

(** After the opening FEND (and the skipped padding), the payload bytes are
    copied down behind it until the closing FEND, which ends the frame. *)
Lemma rx_scan_body body k out mid tl n :
  buffer k = out ++ mid ++ body ++ KISS_FEND :: tl ->
  length (buffer k) = buffer_size k ->
  Forall (fun b => b <> KISS_FEND) body ->
  (2 <= length out + length body)%nat ->
  (length body < n)%nat ->
  (length out + length mid + length body < buffer_size k)%nat ->
  exists k' tl',
    rx_scan k (length out + length mid) n true (length out) =
      (Some KISS_OK, k', true, S (length out + length body)) /\
    buffer k' = out ++ body ++ KISS_FEND :: tl' /\
    index k' = S (length out + length body) /\ Status k' = KISS_STATUS_RECEIVED /\
    buffer_size k' = buffer_size k /\ oob_write k' = oob_write k.
Proof.
  revert k out mid tl n; induction body as [|b body IH];
    intros k out mid tl n HB L F H2 Hn Hi; simpl length in *.
  - destruct n as [|n]; [lia|]. cbn [rx_scan negb].
    assert (LD : load k (length out + length mid) = KISS_FEND).
    { unfold load. rewrite HB, app_assoc, app_nth2 by (rewrite length_app; lia).
      rewrite length_app, Nat.sub_diag. reflexivity. }
    rewrite LD, Z.eqb_refl. replace (length out <=? 1)%nat with false
      by (symmetry; apply Nat.leb_gt; lia). rewrite andb_false_r.
    destruct (store_fields k (length out) KISS_FEND ltac:(lia)) as (B1 & BS1 & I1 & S1 & O1).
    destruct (upd_shift out mid KISS_FEND tl) as (mid2 & U & Lm & N).
    rewrite HB in B1. simpl app in B1.
    assert (LD2 : load (store k (length out) KISS_FEND) (length out + length mid) = KISS_FEND)
      by (unfold load; rewrite B1; exact N).
    rewrite LD2, Z.eqb_refl.
    replace (S (length out) <? 3)%nat with false by (symmetry; apply Nat.ltb_ge; lia).
    eexists; exists (mid2 ++ tl). split; [rewrite Nat.add_0_r; reflexivity|].
    cbn. rewrite B1, U, BS1, O1. rewrite <- !app_assoc. repeat split; lia.
  - destruct n as [|n]; [lia|]. cbn [rx_scan negb].
    inversion F as [|? ? Fb Fbody]; subst.
    assert (LD : load k (length out + length mid) = b).
    { unfold load. rewrite HB, app_assoc, app_nth2 by (rewrite length_app; lia).
      rewrite length_app, Nat.sub_diag. reflexivity. }
    rewrite LD. replace (KISS_FEND =? b) with false
      by (symmetry; apply Z.eqb_neq; congruence).
    rewrite andb_false_r, andb_false_l.
    destruct (store_fields k (length out) b ltac:(lia)) as (B1 & BS1 & I1 & S1 & O1).
    destruct (upd_shift out mid b (body ++ KISS_FEND :: tl)) as (mid2 & U & Lm & N).
    rewrite HB in B1. simpl app in B1.
    assert (LD2 : load (store k (length out) b) (length out + length mid) = b)
      by (unfold load; rewrite B1; exact N).
    rewrite LD2. replace (KISS_FEND =? b) with false
      by (symmetry; apply Z.eqb_neq; congruence).
    set (k1 := store k (length out) b).
    assert (L1 : length (buffer k1) = buffer_size k1)
      by (subst k1; rewrite B1, BS1, upd_length, <- L, HB; reflexivity).
    destruct (IH k1 (out ++ [b]) mid2 tl n) as (k' & tl' & R & B' & I' & S' & BS' & O').
    { subst k1. rewrite B1, U. reflexivity. }
    { exact L1. }
    { exact Fbody. }
    { rewrite length_app; simpl; lia. }
    { lia. }
    { subst k1; rewrite BS1, length_app; simpl; lia. }
    replace (S (length out + length mid)) with (length (out ++ [b]) + length mid2)%nat
      by (rewrite length_app; simpl; lia).
    replace (S (length out)) with (length (out ++ [b])) by (rewrite length_app; simpl; lia).
    rewrite R. exists k', tl'. rewrite length_app in *. simpl length in *.
    split; [f_equal; f_equal; lia|].
    rewrite B', <- app_assoc. simpl app.
    split; [reflexivity|]. split; [lia|]. split; [exact S'|].
    subst k1. rewrite BS', O', BS1, O1. auto.
Qed.

(** The reception of one read holding padding, a frame and trailing bytes. *)
Lemma receive_padded_frame k p body rest n :
  read_set k = true -> length (buffer k) = buffer_size k -> (0 < n)%nat ->
  body <> [] -> Forall (fun b => b <> KISS_FEND) body ->
  (length (repeat KISS_FEND (S p) ++ body ++ KISS_FEND :: rest) <= buffer_size k)%nat ->
  let '(rc, k', _, calls) :=
    kiss_receive_frame nat (block_reader (repeat KISS_FEND (S p) ++ body ++ KISS_FEND :: rest))
                       k 0%nat n in
  rc = KISS_OK /\ Status k' = KISS_STATUS_RECEIVED /\
  valid_bytes k' = KISS_FEND :: body ++ [KISS_FEND] /\ calls = 1%nat /\
  oob_write k' = oob_write k.
Proof.
  intros R L Hn Hb F Hl.
  set (block := repeat KISS_FEND (S p) ++ body ++ KISS_FEND :: rest) in *.
  assert (LB : length block = (S p + length body + S (length rest))%nat)
    by (subst block; rewrite !length_app, repeat_length; simpl; lia).
  unfold kiss_receive_frame. rewrite R. destruct n as [|n]; [lia|]. cbn [negb Nat.eqb rx_attempts].
  set (k0 := set_status (set_index k 0) KISS_STATUS_RECEIVING).
  unfold block_reader. cbn [Nat.eqb]. replace (buffer_size k0) with (buffer_size k) by reflexivity.
  rewrite firstn_all2 by lia.
  destruct (store_block_fields k0 0 block L ltac:(change (buffer_size k0) with (buffer_size k); lia)) as (B1 & BS1 & I1 & O1).
  set (k1 := store_block k0 0 block) in *.
  set (k2 := set_index k1 (index k1 + length block)).
  assert (I2 : index k2 = length block) by (subst k2; simpl; rewrite I1; reflexivity).
  set (T := skipn (length block) (buffer k)).
  assert (B2 : buffer k2 = KISS_FEND :: repeat KISS_FEND p ++ body ++ KISS_FEND :: rest ++ T)
    by (subst k2 T; simpl; rewrite B1; simpl; subst block; rewrite <- !app_assoc; reflexivity).
  assert (L2 : length (buffer k2) = buffer_size k2)
    by (rewrite B2; replace (buffer_size k2) with (buffer_size k) by (subst k2; simpl; rewrite BS1; reflexivity); unfold T;
        cbn [length]; rewrite !length_app; cbn [length]; rewrite !length_app, repeat_length, length_skipn;
        rewrite LB in *; lia).
  rewrite I2, Nat.sub_0_r, LB. change (KISS_OK =? KISS_OK) with true. cbn [Nat.add rx_scan negb].
  assert (LD : load k2 0 = KISS_FEND) by (unfold load; rewrite B2; reflexivity).
  rewrite LD, Z.eqb_refl.
  destruct (store_fields k2 0 KISS_FEND ltac:(subst k2; simpl; rewrite BS1; simpl; lia))
    as (B3 & BS3 & I3 & S3 & O3).
  set (k3 := store k2 0 KISS_FEND) in *.
  assert (B3' : buffer k3 = [KISS_FEND] ++ repeat KISS_FEND p ++ body ++ KISS_FEND :: rest ++ T)
    by (rewrite B3, B2; reflexivity).
  assert (L3 : length (buffer k3) = buffer_size k3) by (rewrite B3, BS3, upd_length; exact L2).
  rewrite (rx_scan_skip k3 1 (p + length body + S (length rest)) p); try lia.
  2: { intros j Hj. unfold load. rewrite B3'. cbn [app Nat.add nth].
       rewrite app_nth1 by (rewrite repeat_length; lia).
       apply (repeat_spec p). apply nth_In. rewrite repeat_length; lia. }
  destruct (rx_scan_body body k3 [KISS_FEND] (repeat KISS_FEND p) (rest ++ T)
              (p + length body + S (length rest) - p))
    as (k' & tl' & RS & B' & I' & S' & BS' & O'); try assumption.
  { simpl; destruct body; [congruence|simpl; lia]. }
  { lia. }
  { rewrite BS3. subst k2. simpl. rewrite BS1. simpl. rewrite repeat_length. lia. }
  simpl length in RS. rewrite repeat_length in RS. rewrite RS.
  split; [reflexivity|]. split; [exact S'|].
  split; [|split; [reflexivity|]].
  - unfold valid_bytes. rewrite B', I'.
    replace ([KISS_FEND] ++ body ++ KISS_FEND :: tl')
      with ((KISS_FEND :: body ++ [KISS_FEND]) ++ tl')
      by (simpl; rewrite <- app_assoc; reflexivity).
    rewrite firstn_app, firstn_all2 by (simpl; rewrite length_app; simpl; lia).
    replace (S (length [KISS_FEND] + length body) - length (KISS_FEND :: body ++ [KISS_FEND]))%nat
      with 0%nat by (cbn [length]; rewrite length_app; cbn [length]; lia).
    rewrite firstn_O, app_nil_r. reflexivity.
  - rewrite O', O3. subst k2. simpl. rewrite O1. reflexivity.
Qed.

(** A single read delivering FEND padding, a frame and trailing bytes is
    received as the frame alone: [kiss_receive_frame] keeps the first FEND,
    skips the padding FEND bytes after it, copies the payload down behind
    it, stops at the closing FEND (ignoring what follows) and reports the
    frame as received after one call of [read]. *)
Theorem kiss_receive_frame_drops_padding k p body rest n :
  read_set k = true -> length (buffer k) = buffer_size k -> (0 < n)%nat ->
  body <> [] -> Forall (fun b => b <> KISS_FEND) body ->
  (length (repeat KISS_FEND (S p) ++ body ++ KISS_FEND :: rest) <= buffer_size k)%nat ->
  let '(rc, k', _, calls) :=
    kiss_receive_frame nat (block_reader (repeat KISS_FEND (S p) ++ body ++ KISS_FEND :: rest))
                       k 0%nat n in
  rc = KISS_OK /\ Status k' = KISS_STATUS_RECEIVED /\
  valid_bytes k' = KISS_FEND :: body ++ [KISS_FEND] /\ calls = 1%nat /\
  oob_write k' = oob_write k.
Proof. exact (receive_padded_frame k p body rest n). Qed.


Lemma kiss_receive_frame_drops_padding_witness :
  read_set (blank_instance 12) = true /\
  length (buffer (blank_instance 12)) = buffer_size (blank_instance 12) /\ (0 < 2)%nat /\
  [0x10; 0x41] <> [] /\ Forall (fun b => b <> KISS_FEND) [0x10; 0x41] /\
  (length (repeat KISS_FEND 3 ++ [0x10; 0x41] ++ KISS_FEND :: [7; 7])%Z <=
     buffer_size (blank_instance 12))%nat /\
  (let '(rc, k', _, calls) :=
     kiss_receive_frame nat (block_reader (repeat KISS_FEND 3 ++ [0x10; 0x41] ++ KISS_FEND :: [7; 7]))
                        (blank_instance 12) 0%nat 2 in
   rc = KISS_OK /\ Status k' = KISS_STATUS_RECEIVED /\
   valid_bytes k' = KISS_FEND :: [0x10; 0x41] ++ [KISS_FEND] /\ calls = 1%nat /\
   oob_write k' = oob_write (blank_instance 12)).
Proof.
  split; [reflexivity|]. split; [reflexivity|]. split; [lia|]. split; [discriminate|].
  split; [repeat constructor; discriminate|]. split; [simpl; lia|].
  apply (kiss_receive_frame_drops_padding (blank_instance 12) 2 [0x10; 0x41] [7; 7] 2);
    [reflexivity | reflexivity | lia | discriminate | repeat constructor; discriminate | simpl; lia].
Defined.

Lemma stuff_byte_no_fend b : Forall (fun x => x <> KISS_FEND) (stuff_byte b).
Proof.
  unfold stuff_byte. destruct (b =? KISS_FEND) eqn:E1; [|destruct (b =? KISS_FESC) eqn:E2].
  - repeat constructor; discriminate.
  - repeat constructor; discriminate.
  - constructor; [|constructor]. apply Z.eqb_neq; exact E1.
Qed.

Lemma stuff_no_fend data : Forall (fun x => x <> KISS_FEND) (stuff data).
Proof.
  induction data as [|b data IH]; [constructor|].
  rewrite stuff_cons. apply Forall_app. split; [apply stuff_byte_no_fend|exact IH].
Qed.

Lemma receive_and_decode_padded k p h data max n :
  read_set k = true -> length (buffer k) = buffer_size k -> (0 < n)%nat ->
  (p + frame_length h data <= buffer_size k)%nat -> (length data <= max)%nat ->
  let '(r, _, calls) :=
    kiss_receive_and_decode nat (block_reader (repeat KISS_FEND p ++ kiss_frame h data))
                            k 0%nat max n in
  dec_rc r = KISS_OK /\ dec_out r = data /\ dec_len r = Some (length data) /\
  dec_hdr r = Some h /\ calls = 1%nat.
Proof.
  intros R L Hn Hf Hd.
  assert (Blk : repeat KISS_FEND p ++ kiss_frame h data =
                repeat KISS_FEND (S p) ++ (stuff_byte h ++ stuff data) ++ KISS_FEND :: []).
  { unfold kiss_frame. rewrite <- Nat.add_1_r, repeat_app, <- !app_assoc. reflexivity. }
  assert (Nb : stuff_byte h ++ stuff data <> []).
  { pose proof (stuff_byte_length h). destruct (stuff_byte h); simpl in *; [lia|discriminate]. }
  assert (Fb : Forall (fun x => x <> KISS_FEND) (stuff_byte h ++ stuff data))
    by (apply Forall_app; split; [apply stuff_byte_no_fend|apply stuff_no_fend]).
  assert (Lb : (length (repeat KISS_FEND (S p) ++ (stuff_byte h ++ stuff data) ++ [KISS_FEND])
                <= buffer_size k)%nat).
  { rewrite <- Blk, length_app, repeat_length. unfold kiss_frame, frame_length in *.
    simpl length. rewrite !length_app. simpl length. lia. }
  pose proof (receive_padded_frame k p (stuff_byte h ++ stuff data) [] n R L Hn Nb Fb Lb) as RF.
  rewrite <- Blk in RF.
  unfold kiss_receive_and_decode.
  replace (buffer_size k =? 0)%nat with false
    by (symmetry; apply Nat.eqb_neq; unfold frame_length in Hf; lia).
  replace (n =? 0)%nat with false by (symmetry; apply Nat.eqb_neq; lia).
  destruct (kiss_receive_frame nat (block_reader (repeat KISS_FEND p ++ kiss_frame h data))
              k 0%nat n) as [[[rc k'] rs'] calls].
  destruct RF as (-> & S' & V & -> & _).
  change (negb (KISS_OK =? KISS_OK)) with false. cbv iota beta.
  rewrite (kiss_decode_frame k' [KISS_FEND] h (stuff data ++ [KISS_FEND]) max S'
             ltac:(repeat constructor)) by (rewrite V, <- app_assoc; reflexivity).
  rewrite (kiss_decode_body_ok k' h (stuff data ++ [KISS_FEND]) max data)
    by (apply decode_loop_stuff_ok; exact Hd).
  simpl. auto.
Qed.

(** What a sender puts on the wire, [padding] FEND bytes followed by the
    frame [kiss_frame h data], delivered by one read, is turned back by
    [kiss_receive_and_decode] into the payload [data] and the header [h]
    when the output buffer can hold the payload. *)
Theorem kiss_receive_and_decode_roundtrip k p h data max n :
  read_set k = true -> length (buffer k) = buffer_size k -> (0 < n)%nat ->
  (p + frame_length h data <= buffer_size k)%nat -> (length data <= max)%nat ->
  let '(r, _, calls) :=
    kiss_receive_and_decode nat (block_reader (repeat KISS_FEND p ++ kiss_frame h data))
                            k 0%nat max n in
  dec_rc r = KISS_OK /\ dec_out r = data /\ dec_len r = Some (length data) /\
  dec_hdr r = Some h /\ calls = 1%nat.
Proof. exact (receive_and_decode_padded k p h data max n). Qed.

Lemma kiss_receive_and_decode_roundtrip_witness :
  read_set (blank_instance 16) = true /\
  length (buffer (blank_instance 16)) = buffer_size (blank_instance 16) /\ (0 < 1)%nat /\
  (2 + frame_length 0 [0xC0; 7]%Z <= buffer_size (blank_instance 16))%nat /\
  (length [0xC0; 7]%Z <= 4)%nat /\
  (let '(r, _, calls) :=
     kiss_receive_and_decode nat (block_reader (repeat KISS_FEND 2 ++ kiss_frame 0 [0xC0; 7]))
                             (blank_instance 16) 0%nat 4 1 in
   dec_rc r = KISS_OK /\ dec_out r = [0xC0; 7] /\ dec_len r = Some (length [0xC0; 7]%Z) /\
   dec_hdr r = Some 0 /\ calls = 1%nat).
Proof.
  split; [reflexivity|]. split; [reflexivity|]. split; [lia|].
  split; [vm_compute; lia|]. split; [simpl; lia|].
  apply (kiss_receive_and_decode_roundtrip (blank_instance 16) 2 0 [0xC0; 7] 4 1);
    [reflexivity | reflexivity | lia | vm_compute; lia | simpl; lia].
Defined.

Lemma stuff_length_ge data : (length data <= length (stuff data))%nat.
Proof.
  induction data as [|b data IH]; [simpl; lia|].
  rewrite stuff_cons, length_app. pose proof (stuff_byte_length b). simpl length. lia.
Qed.



(** *** kiss_request_param *)

Lemma frame_length_u16_ge h x : (5 <= frame_length h (u16_bytes x))%nat.
Proof.
  unfold frame_length. pose proof (stuff_length_ge (u16_bytes x)) as S.
  pose proof (stuff_byte_length h).
  change (length (u16_bytes x)) with 2%nat in S. lia.
Qed.

(** A request answered by one read that delivers [p] padding FENDs and the
    frame [kiss_frame h data]: [kiss_request_param] writes the padding and
    the request frame (header REQUEST_PARAM, the two bytes of the ID), stores [data] into [output] and succeeds exactly when the
    answer's header is the expected one; otherwise it reports an invalid
    frame. *)
Theorem kiss_request_param_exchange k log p h data ID max n hi eh :
  length (buffer k) = buffer_size k -> write_set k = true -> read_set k = true ->
  0 <= padding k <= KISS_MAX_PADDING -> (0 < n)%nat ->
  (frame_length KISS_HEADER_REQUEST_PARAM (u16_bytes ID) <= buffer_size k)%nat ->
  (p + frame_length h data <= buffer_size k)%nat -> (length data <= max)%nat ->
  let '(rc, _, log', _, out) :=
    kiss_request_param _ nat log_writer (block_reader (repeat KISS_FEND p ++ kiss_frame h data))
                       hi k log 0%nat ID max n eh in
  log' = log ++ padding_writes (padding k) ++ [kiss_frame KISS_HEADER_REQUEST_PARAM (u16_bytes ID)] /\
  out = data /\
  rc = (if h =? eh then KISS_OK else KISS_ERR_INVALID_FRAME).
Proof.
  intros L W R P Hn Hq Hf Hd.
  pose proof (frame_length_u16_ge KISS_HEADER_REQUEST_PARAM ID) as G5.
  unfold kiss_request_param.
  replace (buffer_size k <? 5)%nat with false by (symmetry; apply Nat.ltb_ge; lia).
  pose proof (kiss_encode_spec k (u16_bytes ID) KISS_HEADER_REQUEST_PARAM) as E.
  pose proof (same_config_encode k (u16_bytes ID) KISS_HEADER_REQUEST_PARAM) as Cf.
  destruct (kiss_encode k (u16_bytes ID) KISS_HEADER_REQUEST_PARAM) as [rc1 k1].
  cbn [snd] in Cf. destruct Cf as (B1 & _ & W1 & R1 & P1).
  destruct E as (_ & _ & L1 & [(_ & -> & _ & S1 & V1)|(F & _)]); [|lia].
  change (negb (KISS_OK =? KISS_OK)) with false. cbv iota beta.
  rewrite <- S1, set_status_Status_self.
  rewrite kiss_send_frame_log by (rewrite ?W1, ?P1; auto).
  change (negb (KISS_OK =? KISS_OK)) with false. cbv iota beta.
  pose proof (receive_and_decode_padded (set_status k1 KISS_STATUS_TRANSMITTED) p h data max n
                ltac:(cbn; congruence)
                ltac:(rewrite set_status_length, set_status_buffer_size; congruence) Hn
                ltac:(rewrite set_status_buffer_size, B1; lia) Hd) as RD.
  destruct (kiss_receive_and_decode nat _ (set_status k1 KISS_STATUS_TRANSMITTED) 0%nat max n)
    as [[r rs'] calls].
  destruct RD as (Rc & Ro & _ & Rh & _).
  rewrite Rc. change (negb (KISS_OK =? KISS_OK)) with false. cbv iota beta.
  rewrite Rh, (V1 L), P1, Ro.
  destruct (h =? eh); cbn [negb]; repeat split; reflexivity.
Qed.

Lemma kiss_request_param_exchange_witness :
  length (buffer (blank_instance 16)) = buffer_size (blank_instance 16) /\
  write_set (blank_instance 16) = true /\ read_set (blank_instance 16) = true /\
  0 <= padding (blank_instance 16) <= KISS_MAX_PADDING /\ (0 < 1)%nat /\
  (frame_length KISS_HEADER_REQUEST_PARAM (u16_bytes 0x01C0) <= buffer_size (blank_instance 16))%nat /\
  (2 + frame_length 0x20 [0xDB; 5]%Z <= buffer_size (blank_instance 16))%nat /\
  (length [0xDB; 5]%Z <= 4)%nat /\
  (let '(rc, _, log', _, out) :=
     kiss_request_param _ nat log_writer (block_reader (repeat KISS_FEND 2 ++ kiss_frame 0x20 [0xDB; 5]))
                        0 (blank_instance 16) [] 0%nat 0x01C0 4 1 0x21 in
   log' = [] ++ padding_writes (padding (blank_instance 16)) ++
          [kiss_frame KISS_HEADER_REQUEST_PARAM (u16_bytes 0x01C0)] /\
   out = [0xDB; 5] /\
   rc = (if 0x20 =? 0x21 then KISS_OK else KISS_ERR_INVALID_FRAME)).
Proof.
  split; [reflexivity|]. split; [reflexivity|]. split; [reflexivity|].
  split; [cbn; unfold KISS_MAX_PADDING; lia|]. split; [lia|].
  split; [vm_compute; lia|]. split; [vm_compute; lia|]. split; [simpl; lia|].
  apply (kiss_request_param_exchange (blank_instance 16) [] 2 0x20 [0xDB; 5] 0x01C0 4 1 0 0x21);
    [reflexivity | reflexivity | reflexivity | cbn; unfold KISS_MAX_PADDING; lia | lia
    | vm_compute; lia | vm_compute; lia | simpl; lia].
Defined.

(** [kiss_request_param_crc32] never succeeds and never calls [write] nor
    [read]: the request is built by [kiss_encode_crc32], which always fails,
    and nothing is stored into [output]. *)
Theorem kiss_request_param_crc32_fails WS RS write_cb read_cb hi k ws rs ID max n eh :
  let '(rc, _, ws', rs', out) :=
    kiss_request_param_crc32 WS RS write_cb read_cb hi k ws rs ID max n eh in
  rc <> KISS_OK /\ ws' = ws /\ rs' = rs /\ out = [].
Proof.
  unfold kiss_request_param_crc32.
  destruct (buffer_size k <? 5)%nat; [repeat split; discriminate|].
  pose proof (kiss_encode_crc32_rc k (u16_bytes ID) KISS_HEADER_SET_PARAM) as R.
  destruct (kiss_encode_crc32 k (u16_bytes ID) KISS_HEADER_SET_PARAM) as [err k1].
  cbn [fst] in R.
  replace (negb (err =? KISS_OK)) with true
    by (symmetry; apply negb_true_iff, Z.eqb_neq; exact R).
  repeat split; auto.
Qed.

(** *** kiss_receive_frame never reports a short frame *)

Lemma nth_upd_self l i j d : nth i (upd l j (nth i l d)) d = nth i l d.
Proof.
  revert i j; induction l as [|x l IH]; intros [|i] [|j]; simpl; auto.
Qed.

Lemma load_store_self k i j : load (store k j (load k i)) i = load k i.
Proof.
  unfold load, store. destruct (j <? buffer_size k)%nat; simpl; [apply nth_upd_self|reflexivity].
Qed.

(** Once a frame has started, the scan position is past the start and at
    least the opening FEND has been copied; a closing FEND is then copied
    only when [new_index >= 2], so the frame ends with [new_index >= 3]. *)
Lemma rx_scan_no_short k i n fs ni :
  (fs = true -> (1 <= ni)%nat /\ (1 <= i)%nat) ->
  let '(r, k', fs', ni') := rx_scan k i n fs ni in
  match r with
  | Some rc => rc = KISS_OK /\ Status k' = KISS_STATUS_RECEIVED /\ (3 <= index k')%nat
  | None => Status k' = Status k /\ (fs' = true -> (1 <= ni')%nat)
  end.
Proof.
  revert k i fs ni; induction n as [|n IH]; intros k i fs ni Inv; cbn [rx_scan].
  { split; [reflexivity|]. intro E; apply (Inv E). }
  destruct fs; cbn [negb].
  - destruct (Inv eq_refl) as [Hni Hi].
    destruct ((0 <? i)%nat && (KISS_FEND =? load k i) && (ni <=? 1)%nat) eqn:C.
    + specialize (IH k (S i) true ni ltac:(intros _; lia)).
      destruct (rx_scan k (S i) n true ni) as [[[[rc|] k2] fs2] ni2]; exact IH.
    + rewrite load_store_self. destruct (KISS_FEND =? load k i) eqn:F.
      * replace (0 <? i)%nat with true in C by (symmetry; apply Nat.ltb_lt; lia).
        cbn [andb] in C. apply Nat.leb_gt in C.
        replace (S ni <? 3)%nat with false by (symmetry; apply Nat.ltb_ge; lia).
        cbn. split; [reflexivity|]. split; [reflexivity|]. lia.
      * specialize (IH (store k ni (load k i)) (S i) true (S ni) ltac:(intros _; lia)).
        destruct (rx_scan _ (S i) n true (S ni)) as [[[[rc|] k2] fs2] ni2];
          rewrite ?store_Status in IH; exact IH.
  - destruct (KISS_FEND =? load k i).
    + specialize (IH (store k ni (load k i)) (S i) true (S ni) ltac:(intros _; lia)).
      destruct (rx_scan _ (S i) n true (S ni)) as [[[[rc|] k2] fs2] ni2];
        rewrite ?store_Status in IH; exact IH.
    + specialize (IH k (S i) false ni ltac:(discriminate)).
      destruct (rx_scan k (S i) n false ni) as [[[[rc|] k2] fs2] ni2]; exact IH.
Qed.

Lemma rx_attempts_no_short RS read_cb fuel k rs fs ni calls :
  (forall s m, fst (snd (read_cb s m)) = KISS_OK) ->
  Status k = KISS_STATUS_RECEIVING -> (fs = true -> (1 <= ni)%nat) ->
  let '(rc, k', _, _) := rx_attempts RS read_cb fuel k rs fs ni calls in
  rc = KISS_OK /\ Status k' = KISS_STATUS_RECEIVED /\ (3 <= index k')%nat \/
  rc = KISS_ERR_NO_DATA_RECEIVED /\ Status k' = KISS_STATUS_RECEIVING.
Proof.
  intros Hr. revert k rs fs ni calls; induction fuel as [|fuel IH]; intros k rs fs ni calls H Inv.
  { cbn [rx_attempts]. right; split; [reflexivity|exact H]. }
  cbn [rx_attempts]. pose proof (Hr rs (buffer_size k)) as E.
  destruct (read_cb rs (buffer_size k)) as [rs1 [err data]]. cbn in E. subst err.
  set (k1 := set_index (store_block k ni data) (index (store_block k ni data) + length data)).
  assert (S1 : Status k1 = KISS_STATUS_RECEIVING)
    by (subst k1; unfold set_index; simpl; rewrite store_block_Status; exact H).
  change (negb (KISS_OK =? KISS_OK)) with false. cbv iota beta.
  pose proof (rx_scan_no_short k1 ni (index k1 - ni) fs ni ltac:(intro F; pose proof (Inv F); lia))
    as SC.
  destruct (rx_scan k1 ni (index k1 - ni) fs ni) as [[[[rc|] k2] fs2] ni2].
  - left; exact SC.
  - destruct SC as [S2 I2]. apply IH; [congruence|exact I2].
Qed.

(** With a [read] callback that never fails, [kiss_receive_frame] never
    returns [KISS_ERR_INVALID_FRAME]: its [new_index < 3] test is never
    true, since a received frame always holds at least three bytes.  The
    call either receives a frame of length at least 3, runs out of
    attempts still receiving, or refuses its parameters without touching
    the instance. *)
Theorem kiss_receive_frame_no_short_frame RS read_cb k rs n :
  (forall s m, fst (snd (read_cb s m)) = KISS_OK) ->
  let '(rc, k', _, _) := kiss_receive_frame RS read_cb k rs n in
  rc <> KISS_ERR_INVALID_FRAME /\
  (rc = KISS_OK /\ Status k' = KISS_STATUS_RECEIVED /\ (3 <= index k')%nat \/
   rc = KISS_ERR_NO_DATA_RECEIVED /\ Status k' = KISS_STATUS_RECEIVING \/
   (rc = KISS_ERR_CALLBACK_MISSING \/ rc = KISS_ERR_INVALID_PARAMS) /\ k' = k).
Proof.
  intros Hr. unfold kiss_receive_frame.
  destruct (read_set k); cbn [negb].
  2:{ split; [discriminate|]. right; right; split; [left|]; reflexivity. }
  destruct (n =? 0)%nat.
  { split; [discriminate|]. right; right; split; [right|]; reflexivity. }
  pose proof (rx_attempts_no_short RS read_cb n
                (set_status (set_index k 0) KISS_STATUS_RECEIVING) rs false 0 0 Hr
                (set_status_Status _ _) ltac:(discriminate)) as A.
  destruct (rx_attempts RS read_cb n _ rs false 0 0) as [[[rc k'] rs'] c].
  destruct A as [(-> & A2 & A3)|(-> & A2)].
  - split; [discriminate|]. left; auto.
  - split; [discriminate|]. right; left; auto.
Qed.

Lemma kiss_receive_frame_no_short_frame_witness :
  (forall s m, fst (snd (block_reader [KISS_FEND; KISS_FEND; 0x41; KISS_FEND] s m)) = KISS_OK) /\
  (let '(rc, k', _, _) :=
     kiss_receive_frame nat (block_reader [KISS_FEND; KISS_FEND; 0x41; KISS_FEND])
                        (blank_instance 8) 0%nat 2 in
   rc <> KISS_ERR_INVALID_FRAME /\
   (rc = KISS_OK /\ Status k' = KISS_STATUS_RECEIVED /\ (3 <= index k')%nat \/
    rc = KISS_ERR_NO_DATA_RECEIVED /\ Status k' = KISS_STATUS_RECEIVING \/
    (rc = KISS_ERR_CALLBACK_MISSING \/ rc = KISS_ERR_INVALID_PARAMS) /\ k' = blank_instance 8)).
Proof.
  split; [intros; reflexivity|].
  apply (kiss_receive_frame_no_short_frame nat (block_reader [KISS_FEND; KISS_FEND; 0x41; KISS_FEND])
           (blank_instance 8) 0%nat 2).
  intros; reflexivity.
Defined.

(** *** kiss_init *)

(** [kiss_init] succeeds exactly when a buffer is given, holds at least
    three bytes and the padding is at most [KISS_MAX_PADDING], and only then
    yields an instance.  A fresh instance is empty ([index = 0], status
    NOTHING): [kiss_send_frame] refuses it without calling [write], and
    [kiss_decode] refuses it with [KISS_ERR_STATUS]. *)
Theorem kiss_init_fresh buf bs tx w r pad :
  let '(rc, ko) := kiss_init buf bs tx w r pad in
  (rc = KISS_OK <-> buf <> None /\ (3 <= bs)%nat /\ pad <= KISS_MAX_PADDING) /\
  (ko = None <-> rc <> KISS_OK) /\
  (forall k, ko = Some k ->
     index k = 0%nat /\ Status k = KISS_STATUS_NOTHING /\ buffer_size k = bs /\
     padding k = pad /\ oob_write k = false /\
     (forall WS write_cb (ws : WS),
        fst (fst (kiss_send_frame WS write_cb k ws)) <> KISS_OK /\
        snd (fst (kiss_send_frame WS write_cb k ws)) = k /\
        snd (kiss_send_frame WS write_cb k ws) = ws) /\
     (forall max, dec_rc (kiss_decode k max) = KISS_ERR_STATUS /\ dec_kiss (kiss_decode k max) = k)).
Proof.
  unfold kiss_init. destruct buf as [b|].
  2:{ split; [split; [discriminate|intros (N & _); congruence]|].
      split; [split; [intros _; discriminate|reflexivity]|]. discriminate. }
  destruct (bs =? 0)%nat eqn:B0.
  { apply Nat.eqb_eq in B0. split; [split; [discriminate|lia]|].
    split; [split; [intros _; discriminate|reflexivity]|]. discriminate. }
  destruct (bs <? 3)%nat eqn:B3.
  { apply Nat.ltb_lt in B3. split; [split; [discriminate|lia]|].
    split; [split; [intros _; discriminate|reflexivity]|]. discriminate. }
  apply Nat.ltb_ge in B3.
  destruct (pad >? KISS_MAX_PADDING) eqn:P.
  { apply Z.gtb_lt in P. split; [split; [discriminate|lia]|].
    split; [split; [intros _; discriminate|reflexivity]|]. discriminate. }
  rewrite Z.gtb_ltb in P. apply Z.ltb_ge in P.
  split; [split; [intros _; repeat split; auto; discriminate|reflexivity]|].
  split; [split; [discriminate|intro N; exfalso; apply N; reflexivity]|].
  intros k E. injection E as <-. cbn [index Status buffer_size padding oob_write].
  split; [reflexivity|]. split; [reflexivity|]. split; [reflexivity|].
  split; [reflexivity|]. split; [reflexivity|]. split.
  - intros WS write_cb ws. unfold kiss_send_frame. cbn [write_set Status].
    destruct w; cbn; repeat split; discriminate.
  - intro max. split; reflexivity.
Qed.

(** *** kiss_extract_param on a received frame *)

Ltac contra_headers :=
  solve [exfalso; unfold KISS_HEADER_SET_PARAM, KISS_HEADER_REQUEST_PARAM in *; intuition lia].

(** On a received frame [kiss_frame h data] whose payload fits the 256-byte
    scratch buffer, [kiss_extract_param] leaves the instance alone and
    accepts exactly the frames with a SET_PARAM or REQUEST_PARAM header and
    at least two payload bytes: then the ID is the little-endian value of
    the first two bytes and the parameter is the first [max_param_size]
    bytes of the rest; otherwise it reports an invalid frame and extracts
    nothing. *)
Theorem kiss_extract_param_frame kr h data max :
  Status kr = KISS_STATUS_RECEIVED -> valid_bytes kr = kiss_frame h data ->
  (length data <= 256)%nat ->
  let '(rc, k', id, prm) := kiss_extract_param kr max in
  k' = kr /\
  ((h <> KISS_HEADER_SET_PARAM /\ h <> KISS_HEADER_REQUEST_PARAM \/ (length data < 2)%nat) ->
     rc = KISS_ERR_INVALID_FRAME /\ id = None /\ prm = None) /\
  ((h = KISS_HEADER_SET_PARAM \/ h = KISS_HEADER_REQUEST_PARAM) -> (2 <= length data)%nat ->
     rc = KISS_OK /\ id = Some (Z.lor (nth 0 data 0) (Z.shiftl (nth 1 data 0) 8)) /\
     prm = (if (0 <? max)%nat then Some (firstn max (skipn 2 data)) else None)).
Proof.
  intros Sr V Hd. unfold kiss_extract_param. rewrite Sr, status_eqb_refl. cbn [negb].
  rewrite (kiss_decode_frame kr [KISS_FEND] h (stuff data ++ [KISS_FEND]) 256 Sr
             ltac:(repeat constructor)) by (rewrite V; reflexivity).
  rewrite (kiss_decode_body_ok kr h _ 256 data) by (apply decode_loop_stuff_ok; exact Hd).
  cbn [dec_rc dec_kiss dec_out dec_len dec_hdr].
  change (negb (KISS_OK =? KISS_OK)) with false. cbv beta iota zeta.
  destruct (h =? KISS_HEADER_SET_PARAM) eqn:E1; [apply Z.eqb_eq in E1|apply Z.eqb_neq in E1];
  (destruct (h =? KISS_HEADER_REQUEST_PARAM) eqn:E2;
     [apply Z.eqb_eq in E2|apply Z.eqb_neq in E2]);
  (destruct (length data <? 2)%nat eqn:E3; [apply Nat.ltb_lt in E3|apply Nat.ltb_ge in E3]);
  (destruct (0 <? max)%nat); cbn [negb andb orb];
  (split; [reflexivity|]);
  (split; [intro C; (split; [reflexivity|split; reflexivity]) || contra_headers
          |intros C D; contra_headers ||
            (split; [reflexivity|split; [reflexivity|]]; rewrite ?copy_param_spec; reflexivity)]).
Qed.

Lemma kiss_extract_param_frame_witness :
  Status (received_instance (kiss_frame KISS_HEADER_REQUEST_PARAM [0xC0; 0x01; 0xDB]) 16) =
    KISS_STATUS_RECEIVED /\
  valid_bytes (received_instance (kiss_frame KISS_HEADER_REQUEST_PARAM [0xC0; 0x01; 0xDB]) 16) =
    kiss_frame KISS_HEADER_REQUEST_PARAM [0xC0; 0x01; 0xDB] /\
  (length [0xC0; 0x01; 0xDB]%Z <= 256)%nat /\
  (let '(rc, k', id, prm) :=
     kiss_extract_param (received_instance (kiss_frame KISS_HEADER_REQUEST_PARAM [0xC0; 0x01; 0xDB]) 16) 4 in
   k' = received_instance (kiss_frame KISS_HEADER_REQUEST_PARAM [0xC0; 0x01; 0xDB]) 16 /\
   ((KISS_HEADER_REQUEST_PARAM <> KISS_HEADER_SET_PARAM /\
     KISS_HEADER_REQUEST_PARAM <> KISS_HEADER_REQUEST_PARAM \/ (length [0xC0; 0x01; 0xDB]%Z < 2)%nat) ->
      rc = KISS_ERR_INVALID_FRAME /\ id = None /\ prm = None) /\
   ((KISS_HEADER_REQUEST_PARAM = KISS_HEADER_SET_PARAM \/
     KISS_HEADER_REQUEST_PARAM = KISS_HEADER_REQUEST_PARAM) -> (2 <= length [0xC0; 0x01; 0xDB]%Z)%nat ->
      rc = KISS_OK /\
      id = Some (Z.lor (nth 0 [0xC0; 0x01; 0xDB] 0) (Z.shiftl (nth 1 [0xC0; 0x01; 0xDB] 0) 8)) /\
      prm = (if (0 <? 4)%nat then Some (firstn 4 (skipn 2 [0xC0; 0x01; 0xDB])) else None))).
Proof.
  split; [reflexivity|]. split; [reflexivity|]. split; [simpl; lia|].
  apply (kiss_extract_param_frame
           (received_instance (kiss_frame KISS_HEADER_REQUEST_PARAM [0xC0; 0x01; 0xDB]) 16)
           KISS_HEADER_REQUEST_PARAM [0xC0; 0x01; 0xDB] 4);
    [reflexivity | reflexivity | simpl; lia].
Defined.
